(** * ParsedAST: building one translation unit on top of a cached preamble

    A shallow embedding of clangd's [ParsedAST.cpp]: the declaration-tracking
    AST consumer, the preamble replay callbacks, the diagnostic level
    adjuster, and the [ParsedAST::build] / [buildAST] entry points.

    The clang front end, clang-tidy, the virtual file system and the symbol
    index are collaborators whose code lives elsewhere.  They appear here as
    the members of the [Collaborators] class (free functions and methods of
    external classes) and as the recorded behaviour of a [CompilerInstance]
    (what the session does when it is driven).

    The runtime structures of MLIR's [CRunnerUtils.h] (power-of-two padded
    vectors and strided memref descriptors) follow in [CRunnerUtils]. *)

From Stdlib Require Import String Ascii List Bool Arith ZArith Lia.
Import ListNotations.
Open Scope string_scope.
Open Scope list_scope.

Set Implicit Arguments.

(** ** llvm::StringRef helpers *)

Module StringRef.

(** [StringRef::drop_front(1)]: an empty string stays empty (the size check
    is an [assert] inside the library; [substr] clamps). *)
Definition drop_front (s : string) : string :=
  match s with
  | EmptyString => EmptyString
  | String _ rest => rest
  end.

(** [StringRef::drop_back(1)]. *)
Fixpoint drop_back (s : string) : string :=
  match s with
  | EmptyString => EmptyString
  | String _ EmptyString => EmptyString
  | String c rest => String c (drop_back rest)
  end.

(** [StringRef::startswith(Prefix)]. *)
Fixpoint startswith (s Prefix : string) {struct Prefix} : bool :=
  match Prefix, s with
  | EmptyString, _ => true
  | String _ _, EmptyString => false
  | String p Prefix', String c s' => Ascii.eqb c p && startswith s' Prefix'
  end.

Definition empty (s : string) : bool :=
  match s with
  | EmptyString => true
  | String _ _ => false
  end.

End StringRef.

(** The double quote character, and an include spelling rebuilt from the
    bare file name and the angled flag. *)
Definition dquote : ascii := Ascii.ascii_of_nat 34.

Definition spell (Angled : bool) (FileName : string) : string :=
  if Angled
  then String "<"%char (FileName ++ ">")
  else String dquote (FileName ++ String dquote EmptyString).

(** ** Source locations, files, tokens *)

Definition SourceLocation := nat.
Definition FileID := nat.
Definition DiagID := nat.

Record FileEntry := mkFileEntry {
  FileEntry_getName : string;
  FileEntry_UID : nat
}.

(** [FileEntryRef(File->getName(), *File)] *)
Record FileEntryRef := mkFileEntryRef {
  FileEntryRef_Name : string;
  FileEntryRef_Entry : FileEntry
}.

Inductive CharacteristicKind := C_User | C_System | C_ExternCSystem.

Inductive FileChangeReason :=
  EnterFile | ExitFile | SystemHeaderPragma | RenameFile.

Inductive TokenKind :=
  tok_unknown | tok_eof | tok_hash | tok_raw_identifier | tok_identifier
  | tok_header_name | tok_string_literal | tok_less.

Record IdentifierInfo := mkIdentifierInfo {
  II_Name : string;
  II_getTokenID : TokenKind
}.

Record Token := mkToken {
  Token_getKind : TokenKind;
  Token_getLocation : SourceLocation;
  Token_getEndLoc : SourceLocation;
  Token_getRawIdentifier : string;
  Token_getIdentifierInfo : option IdentifierInfo
}.

Definition Token_setIdentifierInfo (T : Token) (II : IdentifierInfo) : Token :=
  mkToken (Token_getKind T) (Token_getLocation T) (Token_getEndLoc T)
          (Token_getRawIdentifier T) (Some II).

Definition Token_setKind (T : Token) (K : TokenKind) : Token :=
  mkToken K (Token_getLocation T) (Token_getEndLoc T)
          (Token_getRawIdentifier T) (Token_getIdentifierInfo T).

(** [CharSourceRange::getCharRange(Begin, End)] *)
Record CharSourceRange := getCharRange {
  Range_Begin : SourceLocation;
  Range_End : SourceLocation
}.

Definition LangOptions := nat.

(** What this file reads from a [SourceManager]. *)
Record SourceManager := mkSourceManager {
  getMainFileID : FileID;
  (** [SM.getBuffer(FID)->getBufferIdentifier()] *)
  getBufferIdentifier : FileID -> string;
  getBufferData : FileID -> string;
  getLocForStartOfFile : FileID -> SourceLocation;
  (** [SM.getFileManager().getFile(Path)], [None] when the lookup fails *)
  FileManager_getFile : string -> option FileEntry
}.

Record ASTContext := mkASTContext {
  getSourceManager : SourceManager
}.

(** ** Declarations *)

(** The two casts [HandleTopLevelDecl] performs: [dyn_cast<NamedDecl>] and
    [isa<ObjCMethodDecl>].  An [ObjCMethodDecl] is a [NamedDecl]. *)
Inductive DeclClass :=
  | ObjCMethodDeclClass
  | OtherNamedDeclClass
  | UnnamedDeclClass.

Record Decl := mkDecl {
  Decl_ID : nat;
  Decl_Class : DeclClass;
  Decl_getLocation : SourceLocation;
  Decl_getASTContext : ASTContext
}.

Definition isa_NamedDecl (D : Decl) : bool :=
  match Decl_Class D with
  | ObjCMethodDeclClass | OtherNamedDeclClass => true
  | UnnamedDeclClass => false
  end.

Definition isa_ObjCMethodDecl (D : Decl) : bool :=
  match Decl_Class D with
  | ObjCMethodDeclClass => true
  | _ => false
  end.

Definition DeclGroupRef := list Decl.

(** ** Diagnostics *)

(** Modelled from the spec: the severity levels of a diagnostic (the
    declaration of [DiagnosticsEngine::Level] is part of clang). *)
Inductive Level := Ignored | Note | Warning | Error | Fatal.

Definition Level_eqb (a b : Level) : bool :=
  match a, b with
  | Ignored, Ignored | Note, Note | Warning, Warning
  | Error, Error | Fatal, Fatal => true
  | _, _ => false
  end.

(** [clang::Diagnostic], as seen by the callbacks installed on [StoreDiags]:
    its id, its location, the source manager when it has one, and the name
    the semantic analysis could not resolve, if that is what it reports. *)
Record Diagnostic := mkDiagnostic {
  Info_getID : DiagID;
  Info_getLocation : SourceLocation;
  Info_SourceManager : option SourceManager;
  Info_Message : string;
  Info_UnresolvedName : option string
}.

Definition Info_hasSourceManager (Info : Diagnostic) : bool :=
  match Info_SourceManager Info with
  | Some _ => true
  | None => false
  end.

(** A suggested textual fix: the [#include] line to insert. *)
Record Fix := mkFix {
  Fix_Insert : string
}.

(** Modelled from the spec: a stored diagnostic (severity, location, message,
    owning check name, suggested fixes); [clangd::Diag] is declared in
    Diagnostics.h. *)
Record Diag := mkDiag {
  Diag_ID : DiagID;
  Diag_Severity : Level;
  Diag_Location : SourceLocation;
  Diag_Message : string;
  Diag_Name : string;
  Diag_Fixes : list Fix
}.

(** ** clang-tidy *)

Record ClangTidyOptions := mkClangTidyOptions {
  Checks : string;
  WarningsAsErrors : string
}.

Record ClangTidyContext := mkClangTidyContext {
  CT_Options : ClangTidyOptions;
  CT_CurrentFile : string;
  CT_ASTContext : option ASTContext;
  CT_LangOpts : LangOptions
}.

Record ClangTidyCheck := mkClangTidyCheck {
  Check_Name : string;
  (** does [registerPPCallbacks] add a listener to the preprocessor *)
  Check_HasPPCallbacks : bool;
  (** does [registerMatchers] add matchers to the finder *)
  Check_HasMatchers : bool
}.

(** ** Include structure and preamble data *)

(** One [#include] directive of the main file, as recorded when the preamble
    was built.  [Inc_Resolved] is empty when the target was not resolved. *)
Record Inclusion := mkInclusion {
  Inc_HashOffset : nat;
  Inc_Written : string;
  Inc_Resolved : string;
  Inc_FileKind : CharacteristicKind
}.

Record IncludeStructure := mkIncludeStructure {
  MainFileIncludes : list Inclusion
}.

Record MainFileMacros := mkMainFileMacros {
  MacroNames : list string
}.

Record CanonicalIncludes := mkCanonicalIncludes {
  CanonicalMapping : list (string * string)
}.

(** ** Preprocessor callbacks *)

(** The notifications [ReplayPreamble] sends to its delegate. *)
Inductive PPCall :=
  | InclusionDirective
      (HashLoc : SourceLocation) (IncludeTok : Token) (FileName : string)
      (IsAngled : bool) (FilenameRange : CharSourceRange)
      (File : option FileEntry) (SearchPath RelativePath : string)
      (Imported : option nat) (FileType : CharacteristicKind)
  | FileSkipped
      (SkippedFile : FileEntryRef) (FilenameTok : Token)
      (FileType : CharacteristicKind)
  | FileNotFound (FileName : string).

#[local] Set Warnings "-register-all".

(** The listeners registered on a preprocessor, oldest first.  The empty
    list is the null [PPCallbacks] pointer; [addPPCallbacks] chains. *)
Inductive PPListener :=
  | SessionCallbacks (id : nat)
  | TidyCheckCallbacks (CheckName : string)
  | ReplayPreambleCallbacks
      (Includes : IncludeStructure) (Delegate : list PPListener)
      (SM : SourceManager) (LangOpts : LangOptions)
  | IncludeStructureCallback
  | CollectMainFileMacros.

Definition addPPCallbacks (PP : list PPListener) (C : PPListener) :
  list PPListener := PP ++ [C].

(** The raw lexer [replay] runs over the main file buffer. *)
Record Lexer := mkLexer {
  Lexer_FileLoc : SourceLocation;
  Lexer_LangOpts : LangOptions;
  Lexer_Buffer : string;
  Lexer_BufferPtr : nat;
  Lexer_ParsingPreprocessorDirective : bool
}.

Definition setParsingPreprocessorDirective (L : Lexer) (b : bool) : Lexer :=
  mkLexer (Lexer_FileLoc L) (Lexer_LangOpts L) (Lexer_Buffer L)
          (Lexer_BufferPtr L) b.

(** ** Sessions, inputs and the result *)

Definition PrecompiledPreamble := nat.

Record FileSystem := mkFileSystem {
  FS_Root : nat;
  FS_WorkingDirectory : option string;
  (** layered under a preamble's stat cache by [getConsumingFS] *)
  FS_StatCache : option nat
}.

Record PreambleData := mkPreambleData {
  Preamble_Preamble : PrecompiledPreamble;
  Preamble_Includes : IncludeStructure;
  Preamble_Macros : MainFileMacros;
  Preamble_CanonIncludes : CanonicalIncludes;
  Preamble_Diags : list Diag;
  Preamble_StatCache : option nat
}.

Record FrontendOptions := mkFrontendOptions {
  DisableFree : bool
}.

Record CompilerInvocation := mkCompilerInvocation {
  getFrontendOpts : FrontendOptions;
  CommandLine : list string
}.

Record MemoryBuffer := getMemBufferCopy {
  getBuffer : string;
  MemoryBuffer_getBufferIdentifier : string
}.

(** Modelled from the spec: the symbol index, "given an unresolved name,
    return candidate declaring headers" (index/Index.h). *)
Record SymbolIndex := mkSymbolIndex {
  Index_lookup : string -> list string
}.

Record ParseOptions := mkParseOptions {
  ClangTidyOpts : ClangTidyOptions;
  SuggestMissingIncludes : bool
}.

Record CompileCommand := mkCompileCommand {
  Directory : string
}.

Record ParseInputs := mkParseInputs {
  Inputs_CompileCommand : CompileCommand;
  Inputs_FS : FileSystem;
  Inputs_Contents : string;
  Inputs_Opts : ParseOptions;
  Inputs_Index : option SymbolIndex
}.

(** What the front end does once it is driven: the answers of
    [BeginSourceFile] and [Execute], and what the installed consumers and
    listeners are handed meanwhile. *)
Record Session := mkSession {
  BeginSourceFile : bool;
  Execute_DeclGroups : list DeclGroupRef;
  Execute_Diagnostics : list (Level * Diagnostic);
  Execute_Includes : list Inclusion;
  Execute_Macros : list string;
  Execute_Tokens : list Token;
  (** the [llvm::Error] of [Action->Execute()], [None] on success *)
  Execute_Error : option string;
  matchAST_Diagnostics : list (Level * Diagnostic);
  EndSourceFile_Diagnostics : list (Level * Diagnostic)
}.

Inductive DiagnosticClient := StoreDiagsClient | IgnoreDiagnostics.

Record CompilerInstance := mkCompilerInstance {
  (** [getFrontendOpts().Inputs[0].getFile()] *)
  Clang_MainInputFile : string;
  Clang_LangOpts : LangOptions;
  Clang_SourceManager : SourceManager;
  Clang_ASTContext : ASTContext;
  Clang_PPCallbacks : list PPListener;
  Clang_ExternalSemaSource : bool;
  Clang_TraversalScope : option (list Decl);
  Clang_DiagnosticClient : DiagnosticClient;
  Clang_Session : Session
}.

Definition Clang_setPPCallbacks (C : CompilerInstance) (PP : list PPListener) :
  CompilerInstance :=
  mkCompilerInstance (Clang_MainInputFile C) (Clang_LangOpts C)
    (Clang_SourceManager C) (Clang_ASTContext C) PP
    (Clang_ExternalSemaSource C) (Clang_TraversalScope C)
    (Clang_DiagnosticClient C) (Clang_Session C).

Definition setExternalSemaSource (C : CompilerInstance) : CompilerInstance :=
  mkCompilerInstance (Clang_MainInputFile C) (Clang_LangOpts C)
    (Clang_SourceManager C) (Clang_ASTContext C) (Clang_PPCallbacks C)
    true (Clang_TraversalScope C)
    (Clang_DiagnosticClient C) (Clang_Session C).

Definition setTraversalScope (C : CompilerInstance) (Ds : list Decl) :
  CompilerInstance :=
  mkCompilerInstance (Clang_MainInputFile C) (Clang_LangOpts C)
    (Clang_SourceManager C) (Clang_ASTContext C) (Clang_PPCallbacks C)
    (Clang_ExternalSemaSource C) (Some Ds)
    (Clang_DiagnosticClient C) (Clang_Session C).

Definition setClient (C : CompilerInstance) (Cl : DiagnosticClient) :
  CompilerInstance :=
  mkCompilerInstance (Clang_MainInputFile C) (Clang_LangOpts C)
    (Clang_SourceManager C) (Clang_ASTContext C) (Clang_PPCallbacks C)
    (Clang_ExternalSemaSource C) (Clang_TraversalScope C)
    Cl (Clang_Session C).

(** [ClangdFrontendAction]: the vector its consumer fills. *)
Record ClangdFrontendAction := mkAction {
  Action_TopLevelDecls : list Decl
}.

(** [takeTopLevelDecls]: the vector is moved out of the action. *)
Definition takeTopLevelDecls (A : ClangdFrontendAction) :
  list Decl * ClangdFrontendAction :=
  (Action_TopLevelDecls A, mkAction []).

Record ParsedAST := mkParsedAST {
  AST_Preamble : option PreambleData;
  AST_Clang : CompilerInstance;
  AST_Action : ClangdFrontendAction;
  AST_Tokens : list Token;
  AST_Macros : MainFileMacros;
  AST_Diags : list Diag;
  AST_LocalTopLevelDecls : list Decl;
  AST_Includes : IncludeStructure;
  AST_CanonIncludes : CanonicalIncludes
}.

(** ** The collaborators

    Free functions and methods of classes defined outside this file. *)
Class Collaborators := {
  (** SourceCode.h *)
  isInsideMainFile : SourceLocation -> SourceManager -> bool;
  (** AST.h; asked of a [NamedDecl] only *)
  isImplicitTemplateInstantiation : Decl -> bool;
  (** [ClangTidyContext::getCheckName], empty for a compiler diagnostic *)
  getCheckName : ClangTidyContext -> DiagID -> string;
  (** [ClangTidyContext::treatAsError] *)
  treatAsError : ClangTidyContext -> string -> bool;
  (** [tidy::shouldSuppressDiagnostic(Level, Info, Context,
      CheckMacroExpansion)] *)
  shouldSuppressDiagnostic :
    Level -> Diagnostic -> ClangTidyContext -> bool -> bool;
  (** the registered modules' factories, then [createChecks] *)
  createChecks : ClangTidyContext -> list ClangTidyCheck;
  isLanguageVersionSupported : ClangTidyCheck -> LangOptions -> bool;
  (** [Lexer::LexFromRawLexer] and [Lexer::LexIncludeFilename] *)
  LexFromRawLexer : Lexer -> Token * Lexer;
  LexIncludeFilename : Lexer -> Token * Lexer;
  (** [Preprocessor::getIdentifierInfo] *)
  getIdentifierInfo : string -> IdentifierInfo;
  (** [CanonicalIncludes::addSystemHeadersMapping] *)
  addSystemHeadersMapping : CanonicalIncludes -> LangOptions -> CanonicalIncludes;
  (** Compiler.h; [None] is the null instance *)
  prepareCompilerInstance :
    CompilerInvocation -> option PrecompiledPreamble -> MemoryBuffer ->
    FileSystem -> option CompilerInstance;
  (** [vfs::FileSystem::getCurrentWorkingDirectory], [None] on error *)
  getCurrentWorkingDirectory : FileSystem -> option string;
  (** [vfs::FileSystem::setCurrentWorkingDirectory]; [true] is a non-zero
      error code *)
  setCurrentWorkingDirectory : FileSystem -> string -> FileSystem * bool;
  (** [PreambleFileStatusCache::getConsumingFS] *)
  getConsumingFS : nat -> FileSystem -> FileSystem
}.

(** ** DeclTrackingASTConsumer *)

Module DeclTrackingASTConsumer.
Section Consumer.
Context `{Collaborators}.

(** The body of the loop of [HandleTopLevelDecl]: [false] is [continue],
    [true] reaches [push_back]. *)
Definition keeps (D : Decl) : bool :=
  let SM := getSourceManager (Decl_getASTContext D) in
  if negb (isInsideMainFile (Decl_getLocation D) SM) then false
  else if isa_NamedDecl D && isImplicitTemplateInstantiation D then false
  else if isa_ObjCMethodDecl D then false
  else true.

(** [HandleTopLevelDecl(DG)] on the consumer's [TopLevelDecls]; the result
    pairs the updated vector with the returned [true]. *)
Fixpoint HandleTopLevelDecl (TopLevelDecls : list Decl) (DG : DeclGroupRef) :
  list Decl * bool :=
  match DG with
  | [] => (TopLevelDecls, true)
  | D :: rest =>
      if keeps D
      then HandleTopLevelDecl (TopLevelDecls ++ [D]) rest
      else HandleTopLevelDecl TopLevelDecls rest
  end.

(** The consumer over every group the parser hands it, in order. *)
Definition consume (TopLevelDecls : list Decl) (Groups : list DeclGroupRef) :
  list Decl :=
  fold_left (fun acc DG => fst (HandleTopLevelDecl acc DG)) Groups TopLevelDecls.

End Consumer.
End DeclTrackingASTConsumer.

(** ** ReplayPreamble *)

Module ReplayPreamble.
Section Replay.
Context `{Collaborators}.

Record t := mk {
  Includes : IncludeStructure;
  Delegate : list PPListener;
  SM : SourceManager;
  LangOpts : LangOptions
}.

(** The file the record resolves to at replay time. *)
Definition resolve (R : t) (Inc : Inclusion) : option FileEntry :=
  if negb (String.eqb (Inc_Resolved Inc) EmptyString)
  then FileManager_getFile (SM R) (Inc_Resolved Inc)
  else None.

(** One iteration of the loop of [replay]: the calls made on the delegate,
    or [None] when [assert(HashTok.getKind() == tok::hash)] fails. *)
Definition replayInclusion (R : t) (Inc : Inclusion) : option (list PPCall) :=
  let File := resolve R Inc in
  let WrittenFilename :=
    StringRef.drop_back (StringRef.drop_front (Inc_Written Inc)) in
  let Angled := StringRef.startswith (Inc_Written Inc) "<" in
  let Src := getBufferData (SM R) (getMainFileID (SM R)) in
  let RawLexer :=
    mkLexer (getLocForStartOfFile (SM R) (getMainFileID (SM R)))
            (LangOpts R) Src (Inc_HashOffset Inc) false in
  let (HashTok, RawLexer) := LexFromRawLexer RawLexer in
  match Token_getKind HashTok with
  | tok_hash =>
      let RawLexer := setParsingPreprocessorDirective RawLexer true in
      let (IncludeTok, RawLexer) := LexFromRawLexer RawLexer in
      let II := getIdentifierInfo (Token_getRawIdentifier IncludeTok) in
      let IncludeTok := Token_setIdentifierInfo IncludeTok II in
      let IncludeTok := Token_setKind IncludeTok (II_getTokenID II) in
      let (FilenameTok, _) := LexIncludeFilename RawLexer in
      let Directive :=
        InclusionDirective
          (Token_getLocation HashTok) IncludeTok WrittenFilename Angled
          (getCharRange (Token_getLocation FilenameTok)
                        (Token_getEndLoc FilenameTok))
          File "SearchPath" "RelPath" None (Inc_FileKind Inc) in
      match File with
      | Some F =>
          Some [Directive;
                FileSkipped (mkFileEntryRef (FileEntry_getName F) F)
                            FilenameTok (Inc_FileKind Inc)]
      | None => Some [Directive; FileNotFound WrittenFilename]
      end
  | _ => None
  end.

Fixpoint replayAll (R : t) (Incs : list Inclusion) : option (list PPCall) :=
  match Incs with
  | [] => Some []
  | Inc :: rest =>
      match replayInclusion R Inc with
      | None => None
      | Some calls =>
          match replayAll R rest with
          | None => None
          | Some more => Some (calls ++ more)
          end
      end
  end.

(** [replay()]: every main-file include of the cached structure, in order. *)
Definition replay (R : t) : option (list PPCall) :=
  replayAll R (MainFileIncludes (Includes R)).

(** [FileChanged]: replay on leaving the built-in buffer, else nothing. *)
Definition FileChanged (R : t) (Loc : SourceLocation)
  (Reason : FileChangeReason) (Kind : CharacteristicKind) (PrevFID : FileID) :
  option (list PPCall) :=
  match Reason with
  | ExitFile =>
      if String.eqb (getBufferIdentifier (SM R) PrevFID) "<built-in>"
      then replay R
      else Some []
  | _ => Some []
  end.

(** [attach(Includes, Clang)] on the preprocessor's listeners: nothing is
    added when nobody is listening. *)
Definition attach (Incs : IncludeStructure) (PP : list PPListener)
  (SrcMgr : SourceManager) (LO : LangOptions) : list PPListener :=
  match PP with
  | [] => PP
  | ExistingCallbacks =>
      addPPCallbacks PP
        (ReplayPreambleCallbacks Incs ExistingCallbacks SrcMgr LO)
  end.

End Replay.
End ReplayPreamble.

(** ** Effects: the log and the queries sent to the symbol index *)

Record World := mkWorld {
  Log : list string;
  IndexRequests : list string
}.

Definition M (A : Type) : Type := World -> A * World.

Definition ret {A} (a : A) : M A := fun w => (a, w).

Definition bind {A B} (c : M A) (k : A -> M B) : M B :=
  fun w => let (a, w') := c w in k a w'.

Notation "x <- c ;; k" := (bind c (fun x => k))
  (at level 61, c at next level, right associativity).
Notation "c ;;; k" := (bind c (fun _ => k))
  (at level 61, right associativity).

Definition log (msg : string) : M unit :=
  fun w => (tt, mkWorld (Log w ++ [msg]) (IndexRequests w)).

Definition queryIndex (Index : SymbolIndex) (Name : string) : M (list string) :=
  fun w => (Index_lookup Index Name, mkWorld (Log w) (IndexRequests w ++ [Name])).

Definition emptyWorld : World := mkWorld [] [].

(** ** IncludeFixer *)

Module IncludeFixer.

(** Modelled from the spec: the include inserter, which knows the includes
    already present in the file (Headers.h). *)
Record IncludeInserter := mkInserter {
  Inserter_FileName : string;
  Inserter_Code : string;
  Inserter_BuildDir : string;
  Inserter_Existing : list Inclusion
}.

Definition addExisting (I : IncludeInserter) (Inc : Inclusion) : IncludeInserter :=
  mkInserter (Inserter_FileName I) (Inserter_Code I) (Inserter_BuildDir I)
             (Inserter_Existing I ++ [Inc]).

(** Modelled from the spec: the diagnostic-repair layer of IncludeFixer.h,
    with its per-build ceiling on index queries and the count so far. *)
Record t := mk {
  File : string;
  Inserter : IncludeInserter;
  Index : SymbolIndex;
  IndexRequestLimit : nat;
  IndexRequestCount : nat
}.

(** Modelled from the spec: [IncludeFixer::fix] ([fix] is a keyword
    here).  A diagnostic about an
    unresolved symbol queries the index for the declaring headers and turns
    each into an inserted [#include]; once the ceiling is reached the
    diagnostic is left unrepaired and no query is sent. *)
Definition fix_ (F : t) (DiagLevel : Level) (Info : Diagnostic) :
  M (list Fix * t) :=
  match Info_UnresolvedName Info with
  | None => ret ([], F)
  | Some Name =>
      if Nat.ltb (IndexRequestCount F) (IndexRequestLimit F)
      then
        Headers <- queryIndex (Index F) Name ;;
        ret (map (fun H => mkFix ("#include " ++ spell false H)) Headers,
             mk (File F) (Inserter F) (Index F) (IndexRequestLimit F)
                (S (IndexRequestCount F)))
      else ret ([], F)
  end.

End IncludeFixer.

(** ** StoreDiags *)

Module StoreDiags.
Section Store.
Context `{Collaborators}.

(** Modelled from the spec: the diagnostic consumer of Diagnostics.h.  Each
    diagnostic goes once through the level adjuster, receives the fixes the
    contributor offers, and is appended; a diagnostic that ends as [Ignored]
    is still recorded. *)
Definition HandleDiagnostic
  (LevelAdjuster : Level -> Diagnostic -> Level)
  (st : list Diag * option IncludeFixer.t)
  (D : Level * Diagnostic) : M (list Diag * option IncludeFixer.t) :=
  let (Output, FixIncludes) := st in
  let (DiagLevel, Info) := D in
  let Adjusted := LevelAdjuster DiagLevel Info in
  match FixIncludes with
  | None =>
      ret (Output ++ [mkDiag (Info_getID Info) Adjusted (Info_getLocation Info)
                             (Info_Message Info) EmptyString []],
           None)
  | Some F =>
      r <- IncludeFixer.fix_ F DiagLevel Info ;;
      ret (Output ++ [mkDiag (Info_getID Info) Adjusted (Info_getLocation Info)
                             (Info_Message Info) EmptyString (fst r)],
           Some (snd r))
  end.

Fixpoint HandleDiagnostics
  (LevelAdjuster : Level -> Diagnostic -> Level)
  (st : list Diag * option IncludeFixer.t)
  (Ds : list (Level * Diagnostic)) : M (list Diag * option IncludeFixer.t) :=
  match Ds with
  | [] => ret st
  | D :: rest =>
      st' <- HandleDiagnostic LevelAdjuster st D ;;
      HandleDiagnostics LevelAdjuster st' rest
  end.

(** Modelled from the spec: [StoreDiags::take(Tidy)] hands the recorded
    diagnostics over, each with the name of its owning check. *)
Definition take (Tidy : option ClangTidyContext) (Output : list Diag) :
  list Diag :=
  match Tidy with
  | None => Output
  | Some Ctx =>
      map (fun d => mkDiag (Diag_ID d) (Diag_Severity d) (Diag_Location d)
                           (Diag_Message d) (getCheckName Ctx (Diag_ID d))
                           (Diag_Fixes d)) Output
  end.

End Store.
End StoreDiags.

(** ** ParsedAST::build *)

Section Build.
Context `{Collaborators}.

(** The lambda handed to [ASTDiags.setLevelAdjuster]. *)
Definition levelAdjuster (CTContext : option ClangTidyContext)
  (DiagLevel : Level) (Info : Diagnostic) : Level :=
  match CTContext with
  | Some Ctx =>
      let CheckName := getCheckName Ctx (Info_getID Info) in
      let IsClangTidyDiag := negb (StringRef.empty CheckName) in
      if IsClangTidyDiag then
        if Level_eqb DiagLevel Warning && treatAsError Ctx CheckName
        then Error
        else
          let IsInsideMainFile :=
            match Info_SourceManager Info with
            | Some InfoSM => isInsideMainFile (Info_getLocation Info) InfoSM
            | None => false
            end in
          if IsInsideMainFile &&
             shouldSuppressDiagnostic DiagLevel Info Ctx false
          then Ignored
          else DiagLevel
      else DiagLevel
  | None => DiagLevel
  end.

(** The listeners of the checks that support the language version. *)
Definition registerChecks (CTChecks : list ClangTidyCheck)
  (LO : LangOptions) (PP : list PPListener) : list PPListener :=
  fold_left
    (fun PP Check =>
       if negb (isLanguageVersionSupported Check LO) then PP
       else if Check_HasPPCallbacks Check
            then addPPCallbacks PP (TidyCheckCallbacks (Check_Name Check))
            else PP)
    CTChecks PP.

(** The clang-tidy context [build] emplaces and fills in. *)
Definition makeCTContext (Opts : ParseOptions) (Filename : string)
  (Clang : CompilerInstance) : ClangTidyContext :=
  mkClangTidyContext (ClangTidyOpts Opts) Filename
                     (Some (Clang_ASTContext Clang)) (Clang_LangOpts Clang).

(** The include fixer [build] sets up, if any: the request limit is 5. *)
Definition makeFixIncludes (Filename Content : string)
  (Preamble : option PreambleData) (VFS : FileSystem)
  (Index : option SymbolIndex) (Opts : ParseOptions) :
  option IncludeFixer.t :=
  let BuildDir := getCurrentWorkingDirectory VFS in
  match SuggestMissingIncludes Opts, Index, BuildDir with
  | true, Some Idx, Some Dir =>
      let Inserter := IncludeFixer.mkInserter Filename Content Dir [] in
      let Inserter :=
        match Preamble with
        | Some P =>
            fold_left IncludeFixer.addExisting
                      (MainFileIncludes (Preamble_Includes P)) Inserter
        | None => Inserter
        end in
      Some (IncludeFixer.mk Filename Inserter Idx 5 0)
  | _, _, _ => None
  end.

Definition build (CI : CompilerInvocation)
  (CompilerInvocationDiags : list Diag) (Preamble : option PreambleData)
  (Buffer : MemoryBuffer) (VFS : FileSystem) (Index : option SymbolIndex)
  (Opts : ParseOptions) : M (option ParsedAST) :=
  let CI := mkCompilerInvocation (mkFrontendOptions false) (CommandLine CI) in
  let PreamblePCH := option_map Preamble_Preamble Preamble in
  let Content := getBuffer Buffer in
  let Filename := MemoryBuffer_getBufferIdentifier Buffer in
  match prepareCompilerInstance CI PreamblePCH Buffer VFS with
  | None => ret None
  | Some Clang =>
    let Action := mkAction [] in
    let MainInput := Clang_MainInputFile Clang in
    if negb (BeginSourceFile (Clang_Session Clang)) then
      log ("BeginSourceFile() failed when building AST for " ++ MainInput) ;;;
      ret None
    else
      (* clang-tidy *)
      let CTContext := Some (makeCTContext Opts Filename Clang) in
      let CTChecks :=
        match CTContext with
        | Some Ctx => createChecks Ctx
        | None => []
        end in
      let LevelAdjuster := levelAdjuster CTContext in
      let Clang :=
        Clang_setPPCallbacks Clang
          (registerChecks CTChecks (Clang_LangOpts Clang)
                          (Clang_PPCallbacks Clang)) in
      (* include fixer *)
      let FixIncludes :=
        makeFixIncludes Filename Content Preamble VFS Index Opts in
      let Clang :=
        match FixIncludes with
        | Some _ => setExternalSemaSource Clang
        | None => Clang
        end in
      (* includes, macros, canonical includes *)
      let Includes :=
        match Preamble with
        | Some P => Preamble_Includes P
        | None => mkIncludeStructure []
        end in
      let Clang :=
        match Preamble with
        | Some _ =>
            Clang_setPPCallbacks Clang
              (ReplayPreamble.attach Includes (Clang_PPCallbacks Clang)
                 (Clang_SourceManager Clang) (Clang_LangOpts Clang))
        | None => Clang
        end in
      let Clang :=
        Clang_setPPCallbacks Clang
          (addPPCallbacks (Clang_PPCallbacks Clang) IncludeStructureCallback) in
      let Macros :=
        match Preamble with
        | Some P => Preamble_Macros P
        | None => mkMainFileMacros []
        end in
      let Clang :=
        Clang_setPPCallbacks Clang
          (addPPCallbacks (Clang_PPCallbacks Clang) CollectMainFileMacros) in
      let CanonIncludes :=
        match Preamble with
        | Some P => Preamble_CanonIncludes P
        | None =>
            addSystemHeadersMapping (mkCanonicalIncludes [])
                                    (Clang_LangOpts Clang)
        end in
      (* drive the session *)
      let Run := Clang_Session Clang in
      let Action :=
        mkAction (DeclTrackingASTConsumer.consume
                    (Action_TopLevelDecls Action) (Execute_DeclGroups Run)) in
      (* what the include and macro collectors add during the run *)
      let Includes :=
        mkIncludeStructure (MainFileIncludes Includes ++ Execute_Includes Run) in
      let Macros := mkMainFileMacros (MacroNames Macros ++ Execute_Macros Run) in
      st <- StoreDiags.HandleDiagnostics LevelAdjuster ([], FixIncludes)
              (Execute_Diagnostics Run) ;;
      match Execute_Error Run with
      | Some Err =>
          log ("Execute() failed when building AST for " ++ MainInput
               ++ ": " ++ Err)
      | None => ret tt
      end ;;;
      let Tokens := Execute_Tokens Run in
      let (ParsedDecls, Action) := takeTopLevelDecls Action in
      let Clang := setTraversalScope Clang ParsedDecls in
      st <- StoreDiags.HandleDiagnostics LevelAdjuster st
              (matchAST_Diagnostics Run) ;;
      (* what [Preprocessor::EndSourceFile] still reports reaches
         [IgnoreDiagnostics], not [ASTDiags] *)
      let Clang := setClient Clang IgnoreDiagnostics in
      let Diags := CompilerInvocationDiags in
      let Diags :=
        match Preamble with
        | Some P => Diags ++ Preamble_Diags P
        | None => Diags
        end in
      let D := StoreDiags.take CTContext (fst st) in
      let Diags := Diags ++ D in
      ret (Some (mkParsedAST Preamble Clang Action Tokens Macros Diags
                             ParsedDecls Includes CanonIncludes))
  end.

(** ** buildAST *)

Definition buildAST (FileName : string) (Invocation : CompilerInvocation)
  (CompilerInvocationDiags : list Diag) (Inputs : ParseInputs)
  (Preamble : option PreambleData) : M (option ParsedAST) :=
  let VFS := Inputs_FS Inputs in
  let VFS :=
    match Preamble with
    | Some P =>
        match Preamble_StatCache P with
        | Some Cache => getConsumingFS Cache VFS
        | None => VFS
        end
    | None => VFS
    end in
  let (VFS, Failed) :=
    setCurrentWorkingDirectory VFS (Directory (Inputs_CompileCommand Inputs)) in
  (if Failed
   then log "Couldn't set working directory when building the preamble."
   else ret tt) ;;;
  build Invocation CompilerInvocationDiags Preamble
        (getMemBufferCopy (Inputs_Contents Inputs) FileName)
        VFS (Inputs_Index Inputs) (Inputs_Opts Inputs).

End Build.

(** ** CRunnerUtils.h: codegen-compatible vectors and strided memrefs *)

Module CRunnerUtils.

(** [unsigned] arithmetic is modulo 2^32, [int64_t] is two's complement on
    64 bits. *)
Definition wrap32 (z : Z) : Z := (z mod 2 ^ 32)%Z.

Definition wrap64 (z : Z) : Z := ((z + 2 ^ 63) mod 2 ^ 64 - 2 ^ 63)%Z.

(** [*(res + k) = v] on an array held as a list; a position past the end
    is not written. *)
Fixpoint store (res : list Z) (k : nat) (v : Z) : list Z :=
  match res, k with
  | [], _ => []
  | _ :: rest, O => v :: rest
  | x :: rest, S k' => x :: store rest k' v
  end.

(** The loop of [dropFront], from [i] on, [count] iterations left:
    [*(res + i - 1) = arr[i]]. *)
Fixpoint dropFront_from (count i : nat) (arr res : list Z) : list Z :=
  match count with
  | O => res
  | S count' =>
      dropFront_from count' (S i) arr (store res (i - 1) (nth i arr 0%Z))
  end.

(** [dropFront<N>(arr, res)]: [for (unsigned i = 1; i < N; ++i)]. *)
Definition dropFront (N : nat) (arr res : list Z) : list Z :=
  dropFront_from (N - 1) 1 arr res.

(** [detail::isPowerOf2<N>()]: [!(N & (N - 1))] on [unsigned]. *)
Definition isPowerOf2 (N : Z) : bool :=
  Z.eqb (Z.land N (wrap32 (N - 1))) 0.

(** [detail::nextPowerOf2<N>()]; each instantiation halves [N], so 32
    nested instantiations reach one of the two specializations. *)
Fixpoint nextPowerOf2_depth (depth : nat) (N : Z) : Z :=
  if Z.eqb N 0 then 1%Z
  else if Z.eqb N 1 then 1%Z
  else if isPowerOf2 N then N
  else
    match depth with
    | O => 0%Z
    | S depth' =>
        wrap32 (2 * nextPowerOf2_depth depth' (wrap32 (N + 1) / 2))
    end.

Definition nextPowerOf2 (N : Z) : Z := nextPowerOf2_depth 32 N.

(** The padding of a [Vector1D] whose array takes [Size] bytes. *)
Definition Vector1D_padding (Size : Z) : Z :=
  if isPowerOf2 Size then 0%Z else (nextPowerOf2 Size - Size)%Z.

(** [StridedMemRefType<T, N>]: pointers are counted in elements of [T]. *)
Record StridedMemRefType := mkStridedMemRef {
  basePtr : Z;
  data : Z;
  offset : Z;
  sizes : list Z;
  strides : list Z
}.

(** [operator[]] of rank [N] above 1; [res] holds what the fresh descriptor
    [res] contains before it is filled in. *)
Definition subscript (N : nat) (M res : StridedMemRefType) (idx : Z) :
  StridedMemRefType :=
  mkStridedMemRef
    (basePtr M)
    (data M)
    (wrap64 (offset M + wrap64 (idx * nth 0 (strides M) 0%Z)))
    (dropFront N (sizes M) (sizes res))
    (dropFront N (strides M) (strides res)).






(** A power of two. *)
Definition powerOfTwo (N : Z) : Prop := exists k, (0 <= k /\ N = 2 ^ k)%Z.

(** The values of [unsigned] and of [int64_t]. *)
Definition isUnsigned (N : Z) : Prop := (0 <= N < 2 ^ 32)%Z.

Definition isInt64 (z : Z) : Prop := (- 2 ^ 63 <= z < 2 ^ 63)%Z.

End CRunnerUtils.

(** ** Vocabulary of the properties *)

Section Vocabulary.
Context `{Collaborators}.

(** A diagnostic whose location lies inside the main file. *)
Definition locatedInMainFile (Info : Diagnostic) : Prop :=
  exists InfoSM, Info_SourceManager Info = Some InfoSM
                 /\ isInsideMainFile (Info_getLocation Info) InfoSM = true.

(** The finding is escalated: a warning of a check treated as error. *)
Definition escalated (Ctx : ClangTidyContext) (DiagLevel : Level)
  (Info : Diagnostic) : Prop :=
  DiagLevel = Warning
  /\ treatAsError Ctx (getCheckName Ctx (Info_getID Info)) = true.

(** The written spelling is a file name between quotes or angle brackets. *)
Definition delimited (Written : string) : Prop :=
  exists Angled FileName, Written = spell Angled FileName.

(** The raw lexer started at the record's offset finds the [#] there. *)
Definition lexesHash (R : ReplayPreamble.t) (Inc : Inclusion) : Prop :=
  let SM := ReplayPreamble.SM R in
  Token_getKind
    (fst (LexFromRawLexer
            (mkLexer (getLocForStartOfFile SM (getMainFileID SM))
                     (ReplayPreamble.LangOpts R)
                     (getBufferData SM (getMainFileID SM))
                     (Inc_HashOffset Inc) false))) = tok_hash.

Definition wellFormed (R : ReplayPreamble.t) (Inc : Inclusion) : Prop :=
  delimited (Inc_Written Inc) /\ lexesHash R Inc.

End Vocabulary.

(** The spelling an "inclusion observed" notification carries. *)
Definition directiveSpelling (c : PPCall) : list string :=
  match c with
  | InclusionDirective _ _ FileName IsAngled _ _ _ _ _ _ =>
      [spell IsAngled FileName]
  | _ => []
  end.

Definition directiveSpellings (calls : list PPCall) : list string :=
  flat_map directiveSpelling calls.

Definition isInclusionDirective (c : PPCall) : bool :=
  match c with
  | InclusionDirective _ _ _ _ _ _ _ _ _ _ => true
  | _ => false
  end.

(** The file name between the delimiters of a record's spelling. *)
Definition bareName (Inc : Inclusion) : string :=
  StringRef.drop_back (StringRef.drop_front (Inc_Written Inc)).

(** The diagnostics emitted while the unit is built and [ASTDiags] is the
    client: those of [Execute], then those of the matchers. *)
Definition buildDiagnostics (Clang : CompilerInstance) :
  list (Level * Diagnostic) :=
  Execute_Diagnostics (Clang_Session Clang)
  ++ matchAST_Diagnostics (Clang_Session Clang).

(** What identifies a stored diagnostic, and what an emitted one is stored
    as under a level adjuster. *)
Definition summary (d : Diag) : DiagID * Level * SourceLocation * string :=
  (Diag_ID d, Diag_Severity d, Diag_Location d, Diag_Message d).

Definition recorded (LevelAdjuster : Level -> Diagnostic -> Level)
  (d : Level * Diagnostic) : DiagID * Level * SourceLocation * string :=
  (Info_getID (snd d), LevelAdjuster (fst d) (snd d),
   Info_getLocation (snd d), Info_Message (snd d)).

(** The queries the fixer may still send. *)
Definition remaining (F : option IncludeFixer.t) : nat :=
  match F with
  | Some F => IncludeFixer.IndexRequestLimit F - IncludeFixer.IndexRequestCount F
  | None => 0
  end.

(** The invocation [build] hands on, with [DisableFree] cleared. *)
Definition freeing (CI : CompilerInvocation) : CompilerInvocation :=
  mkCompilerInvocation (mkFrontendOptions false) (CommandLine CI).

(** The file system [buildAST] starts from: the inputs', under the
    preamble's stat cache when there is one. *)
Definition consumingFS `{Collaborators} (Inputs : ParseInputs)
  (Preamble : option PreambleData) : FileSystem :=
  match Preamble with
  | Some P =>
      match Preamble_StatCache P with
      | Some Cache => getConsumingFS Cache (Inputs_FS Inputs)
      | None => Inputs_FS Inputs
      end
  | None => Inputs_FS Inputs
  end.

(** What [HandleTopLevelDecl] requires of a declaration it keeps. *)
Definition mainFileTopLevel `{Collaborators} (D : Decl) : Prop :=
  isInsideMainFile (Decl_getLocation D)
                   (getSourceManager (Decl_getASTContext D)) = true
  /\ (isa_NamedDecl D = true -> isImplicitTemplateInstantiation D = false)
  /\ isa_ObjCMethodDecl D = false.

(** What one iteration hands to the delegate, up to the tokens the raw
    lexer produced. *)
Definition iterationCalls `{Collaborators} (R : ReplayPreamble.t)
  (Inc : Inclusion) (calls : list PPCall) : Prop :=
  exists HashLoc IncludeTok Range FilenameTok,
    calls =
      [InclusionDirective HashLoc IncludeTok (bareName Inc)
         (StringRef.startswith (Inc_Written Inc) "<") Range
         (ReplayPreamble.resolve R Inc)
         "SearchPath" "RelPath" None (Inc_FileKind Inc);
       match ReplayPreamble.resolve R Inc with
       | Some F =>
           FileSkipped (mkFileEntryRef (FileEntry_getName F) F) FilenameTok
                       (Inc_FileKind Inc)
       | None => FileNotFound (bareName Inc)
       end].

(** ** More vocabulary *)




Section MoreVocabulary.
Context `{Collaborators}.


(** The listeners of the checks, as [build] registers them on the
    session's own. *)
Definition checkListeners (Opts : ParseOptions) (Buffer : MemoryBuffer)
  (Clang : CompilerInstance) : list PPListener :=
  registerChecks
    (createChecks
       (makeCTContext Opts (MemoryBuffer_getBufferIdentifier Buffer) Clang))
    (Clang_LangOpts Clang) (Clang_PPCallbacks Clang).

(** The world after the line [build] logs for a failed [Execute]. *)
Definition afterExecute (Clang : CompilerInstance) (w : World) : World :=
  match Execute_Error (Clang_Session Clang) with
  | Some Err =>
      mkWorld
        (Log w ++ [("Execute() failed when building AST for "
                    ++ Clang_MainInputFile Clang ++ ": " ++ Err)%string])
        (IndexRequests w)
  | None => w
  end.

End MoreVocabulary.

(** ** A concrete session

    One instance of the collaborators and a few inputs, on which the models
    above compute. *)

Module Sample.

Definition newline : string := String (Ascii.ascii_of_nat 10) EmptyString.

(** The main file: an angled include at offset 0, a quoted one at offset
    15, then a declaration. *)
Definition Contents : string :=
  "#include <a.h>" ++ newline
  ++ "#include " ++ spell false "gone.h" ++ newline
  ++ "int x = 1;".

Definition FileName : string := "/src/main.cpp".

Definition a_h : FileEntry := mkFileEntry "/usr/include/a.h" 1.

Definition SrcMgr : SourceManager :=
  mkSourceManager 1
    (fun FID => if Nat.eqb FID 0 then "<built-in>" else FileName)
    (fun _ => Contents)
    (fun FID => FID * 1000)
    (fun Path => if String.eqb Path "/usr/include/a.h" then Some a_h else None).

Definition Ctx : ASTContext := mkASTContext SrcMgr.

(** Locations 1000..1999 belong to the main file. *)
Definition insideMain (Loc : SourceLocation) (_ : SourceManager) : bool :=
  Nat.leb 1000 Loc && Nat.ltb Loc 2000.

Definition checkName (_ : ClangTidyContext) (ID : DiagID) : string :=
  match ID with
  | 1 => "R"
  | 2 => "S"
  | _ => EmptyString
  end.

(** Lines 3 and 5 of the main file carry a suppression comment. *)
Definition suppressed (_ : Level) (Info : Diagnostic) (_ : ClangTidyContext)
  (CheckMacroExpansion : bool) : bool :=
  Nat.eqb (Info_getLocation Info) 1003 || Nat.eqb (Info_getLocation Info) 1005.

Definition lexRaw (L : Lexer) : Token * Lexer :=
  let next n :=
    mkLexer (Lexer_FileLoc L) (Lexer_LangOpts L) (Lexer_Buffer L)
            (Lexer_BufferPtr L + n) (Lexer_ParsingPreprocessorDirective L) in
  let at_ := Lexer_FileLoc L + Lexer_BufferPtr L in
  if Lexer_ParsingPreprocessorDirective L
  then (mkToken tok_raw_identifier at_ (at_ + 7) "include" None, next 7)
  else
    match String.get (Lexer_BufferPtr L) (Lexer_Buffer L) with
    | Some "#"%char => (mkToken tok_hash at_ (at_ + 1) EmptyString None, next 1)
    | _ => (mkToken tok_unknown at_ (at_ + 1) EmptyString None, next 1)
    end.

Definition lexFilename (L : Lexer) : Token * Lexer :=
  let at_ := Lexer_FileLoc L + Lexer_BufferPtr L + 1 in
  (mkToken tok_header_name at_ (at_ + 5) EmptyString None, L).

Definition x_decl : Decl := mkDecl 1 OtherNamedDeclClass 1030 Ctx.
Definition header_decl : Decl := mkDecl 2 OtherNamedDeclClass 2040 Ctx.
Definition method_decl : Decl := mkDecl 3 ObjCMethodDeclClass 1050 Ctx.
Definition instantiation_decl : Decl := mkDecl 7 OtherNamedDeclClass 1060 Ctx.
Definition assert_decl : Decl := mkDecl 8 UnnamedDeclClass 1070 Ctx.

(** A warning of check R on line 3, one of check S on line 5, and an
    unresolved name reported by the compiler. *)
Definition R_warning : Diagnostic :=
  mkDiagnostic 1 1003 (Some SrcMgr) "finding of R" None.
Definition S_warning : Diagnostic :=
  mkDiagnostic 2 1005 (Some SrcMgr) "finding of S" None.
Definition S_in_header : Diagnostic :=
  mkDiagnostic 2 2005 (Some SrcMgr) "finding of S in a header" None.
Definition unresolved (n : nat) : Diagnostic :=
  mkDiagnostic 9 (1100 + n) (Some SrcMgr) "unknown type name" (Some "Foo").

Definition session (Started : bool) (Err : option string) : Session :=
  mkSession Started
    [[x_decl; header_decl]; [method_decl]; [instantiation_decl; assert_decl]]
    ((Warning, R_warning) :: (Warning, S_warning)
       :: map (fun n => (Error, unresolved n)) (seq 0 8))
    [] [] [mkToken tok_identifier 1030 1031 "x" None]
    Err
    [(Warning, S_in_header)]
    [(Warning, S_warning)].

(** The session the invocation leads to: none for an unknown target, one
    that cannot open the main file for an empty buffer name, one whose
    parse fails for the file system rooted at 2. *)
Definition prepare (CI : CompilerInvocation) (_ : option PrecompiledPreamble)
  (Buffer : MemoryBuffer) (VFS : FileSystem) : option CompilerInstance :=
  if existsb (String.eqb "--target=bogus") (CommandLine CI) then None
  else
    Some (mkCompilerInstance
            (MemoryBuffer_getBufferIdentifier Buffer) 17 SrcMgr Ctx
            [SessionCallbacks 0] false None StoreDiagsClient
            (session
               (negb (StringRef.empty (MemoryBuffer_getBufferIdentifier Buffer)))
               (if Nat.eqb (FS_Root VFS) 2
                then Some "parse aborted" else None))).

Definition collaborators : Collaborators := {|
  isInsideMainFile := insideMain;
  isImplicitTemplateInstantiation := fun D => Nat.eqb (Decl_ID D) 7;
  getCheckName := checkName;
  treatAsError := fun _ Name => String.eqb Name "R";
  shouldSuppressDiagnostic := suppressed;
  createChecks := fun _ =>
    [mkClangTidyCheck "R" true true; mkClangTidyCheck "S" false true];
  isLanguageVersionSupported := fun _ _ => true;
  LexFromRawLexer := lexRaw;
  LexIncludeFilename := lexFilename;
  getIdentifierInfo := fun Name => mkIdentifierInfo Name tok_identifier;
  addSystemHeadersMapping := fun C _ =>
    mkCanonicalIncludes (("bits/shared_ptr.h", "<memory>") :: CanonicalMapping C);
  prepareCompilerInstance := prepare;
  getCurrentWorkingDirectory := FS_WorkingDirectory;
  setCurrentWorkingDirectory := fun VFS Dir =>
    if String.eqb Dir "/nonexistent" then (VFS, true)
    else (mkFileSystem (FS_Root VFS) (Some Dir) (FS_StatCache VFS), false);
  getConsumingFS := fun Cache VFS =>
    mkFileSystem (FS_Root VFS) (FS_WorkingDirectory VFS) (Some Cache)
|}.

Definition Includes : IncludeStructure :=
  mkIncludeStructure
    [mkInclusion 0 "<a.h>" "/usr/include/a.h" C_System;
     mkInclusion 15 (spell false "gone.h") "/src/gone.h" C_User].

Definition Preamble : PreambleData :=
  mkPreambleData 1 Includes (mkMainFileMacros ["GUARD"])
    (mkCanonicalIncludes [])
    [mkDiag 30 Warning 1001 "unused include" EmptyString []]
    None.

Definition Replayer : ReplayPreamble.t :=
  ReplayPreamble.mk Includes [TidyCheckCallbacks "R"] SrcMgr 17.

(** The calls one replay over the sample hands to the delegate. *)
Definition ReplayedCalls : list PPCall :=
  Eval vm_compute in
    match @ReplayPreamble.replay collaborators Replayer with
    | Some calls => calls
    | None => []
    end.

Definition Invocation : CompilerInvocation :=
  mkCompilerInvocation (mkFrontendOptions true) ["clang"; "main.cpp"].

Definition BadInvocation : CompilerInvocation :=
  mkCompilerInvocation (mkFrontendOptions true)
                       ["clang"; "--target=bogus"; "main.cpp"].

Definition ConfigDiags : list Diag :=
  [mkDiag 20 Warning 0 "unknown argument" EmptyString []].

Definition Buffer : MemoryBuffer := getMemBufferCopy Contents FileName.

Definition FS (Root : nat) : FileSystem := mkFileSystem Root (Some "/src") None.

Definition Index : SymbolIndex :=
  mkSymbolIndex (fun Name => if String.eqb Name "Foo" then ["foo.h"] else []).

Definition Opts : ParseOptions :=
  mkParseOptions (mkClangTidyOptions "*" "R") true.

Definition TidyCtx : ClangTidyContext :=
  mkClangTidyContext (ClangTidyOpts Opts) FileName (Some Ctx) 17.

Definition Inputs (Dir : string) : ParseInputs :=
  mkParseInputs (mkCompileCommand Dir) (FS 0) Contents Opts (Some Index).

Definition ExhaustedFixer : IncludeFixer.t :=
  IncludeFixer.mk FileName (IncludeFixer.mkInserter FileName Contents "/src" [])
                  Index 5 5.

End Sample.

Module CRunnerSample.
Import CRunnerUtils.
Local Open Scope Z_scope.

(** A 2 x 3 x 4 memref in row-major layout, starting at offset 5. *)
Definition cube : StridedMemRefType :=
  mkStridedMemRef 1000 1000 5 [2; 3; 4] [12; 4; 1].

Definition fresh (n : nat) : StridedMemRefType :=
  mkStridedMemRef 0 0 0 (repeat (-1) n) (repeat (-1) n).

End CRunnerSample.

(** More inputs on the sample session. *)
Module MoreSample.




(** The session [Sample.prepare] opens for the sample buffer. *)
Definition Clang (Err : option string) : CompilerInstance :=
  mkCompilerInstance
    Sample.FileName 17 Sample.SrcMgr Sample.Ctx [SessionCallbacks 0] false
    None StoreDiagsClient (Sample.session true Err).

End MoreSample.

(** * Properties *)

(** ** The declaration-tracking consumer *)

Section ConsumerFacts.
Context `{Collaborators}.

Import DeclTrackingASTConsumer.

Lemma HandleTopLevelDecl_filter (DG : DeclGroupRef) (acc : list Decl) :
  HandleTopLevelDecl acc DG = (acc ++ filter keeps DG, true).
Proof.
  revert acc; induction DG as [|D rest IH]; intros acc; simpl.
  - now rewrite app_nil_r.
  - destruct (keeps D); rewrite IH; [|reflexivity].
    now rewrite <- app_assoc.
Qed.

Lemma consume_filter (Groups : list DeclGroupRef) (acc : list Decl) :
  consume acc Groups = acc ++ filter keeps (concat Groups).
Proof.
  unfold consume.
  revert acc; induction Groups as [|DG rest IH]; intros acc; simpl.
  - now rewrite app_nil_r.
  - rewrite IH, HandleTopLevelDecl_filter; simpl.
    now rewrite filter_app, app_assoc.
Qed.

Lemma keeps_true (D : Decl) : keeps D = true -> mainFileTopLevel D.
Proof.
  unfold keeps, mainFileTopLevel.
  destruct (isInsideMainFile _ _); simpl; [|discriminate].
  destruct (isa_NamedDecl D); simpl.
  - destruct (isImplicitTemplateInstantiation D); [discriminate|].
    destruct (isa_ObjCMethodDecl D); [discriminate|]. tauto.
  - destruct (isa_ObjCMethodDecl D); [discriminate|].
    intros _; repeat split; discriminate.
Qed.

Lemma consume_mainFileTopLevel (Groups : list DeclGroupRef) :
  Forall mainFileTopLevel (consume [] Groups).
Proof.
  rewrite consume_filter; simpl.
  apply Forall_forall; intros D HD.
  apply filter_In in HD. now apply keeps_true.
Qed.

End ConsumerFacts.

(** ** The level adjuster *)

Section AdjusterFacts.
Context `{Collaborators}.

Lemma empty_false_iff (s : string) :
  StringRef.empty s = false <-> s <> EmptyString.
Proof.
  destruct s; simpl; split; intros; congruence.
Qed.

(** C5: a Warning owned by a named check that is configured to be treated
    as error leaves the level adjuster as Error, whatever the suppression
    test would answer for it: the escalation test comes first and returns
    before suppression is consulted. *)
Theorem escalation_beats_suppression
  (Ctx : ClangTidyContext) (Info : Diagnostic) :
  getCheckName Ctx (Info_getID Info) <> EmptyString ->
  treatAsError Ctx (getCheckName Ctx (Info_getID Info)) = true ->
  levelAdjuster (Some Ctx) Warning Info = Error.
Proof.
  intros Hname Htreat. unfold levelAdjuster.
  apply empty_false_iff in Hname. rewrite Hname, Htreat. reflexivity.
Qed.

(** C6: for a check-owned diagnostic that is not escalated, a location
    inside the main file together with a suppression comment covering it
    (asked without following macro expansions) gives Ignored; and a
    diagnostic that is not located inside the main file is never demoted:
    the adjuster returns its level unchanged, or Error when it escalates a
    Warning, whatever the suppression test says. *)
Theorem suppression_when_not_escalated
  (Ctx : ClangTidyContext) (DiagLevel : Level) (Info : Diagnostic) :
  (getCheckName Ctx (Info_getID Info) <> EmptyString ->
   ~ escalated Ctx DiagLevel Info ->
   locatedInMainFile Info ->
   shouldSuppressDiagnostic DiagLevel Info Ctx false = true ->
   levelAdjuster (Some Ctx) DiagLevel Info = Ignored)
  /\ (~ locatedInMainFile Info ->
      forall CTContext,
        levelAdjuster CTContext DiagLevel Info = DiagLevel
        \/ (DiagLevel = Warning
            /\ levelAdjuster CTContext DiagLevel Info = Error)).
Proof.
  split.
  - intros Hname Hesc (InfoSM & HSM & Hin) Hsup.
    apply empty_false_iff in Hname.
    unfold levelAdjuster; rewrite Hname; simpl.
    destruct (Level_eqb DiagLevel Warning) eqn:El; simpl.
    + destruct (treatAsError Ctx _) eqn:Et.
      * exfalso; apply Hesc; split; [|assumption].
        destruct DiagLevel; simpl in El; congruence.
      * now rewrite HSM, Hin, Hsup.
    + now rewrite HSM, Hin, Hsup.
  - intros Hout [Ctx'|]; [|now left].
    unfold levelAdjuster.
    destruct (negb (StringRef.empty _)); [|now left].
    destruct (Level_eqb DiagLevel Warning) eqn:El; simpl.
    + destruct (treatAsError Ctx' _).
      * right; split; [|reflexivity].
        destruct DiagLevel; simpl in El; congruence.
      * destruct (Info_SourceManager Info) as [InfoSM|] eqn:HSM; [|now left].
        destruct (isInsideMainFile _ InfoSM) eqn:Hin; [|now left].
        exfalso; apply Hout; now exists InfoSM.
    + destruct (Info_SourceManager Info) as [InfoSM|] eqn:HSM; [|now left].
      destruct (isInsideMainFile _ InfoSM) eqn:Hin; [|now left].
      exfalso; apply Hout; now exists InfoSM.
Qed.

End AdjusterFacts.

(** ** Replaying the preamble's includes *)

Section StringFacts.

Lemma drop_back_snoc (s : string) (c : ascii) :
  StringRef.drop_back (s ++ String c EmptyString) = s.
Proof.
  induction s as [|a s IH]; simpl; [reflexivity|].
  rewrite IH. destruct s; reflexivity.
Qed.

Lemma bare_spell (Angled : bool) (FileName : string) :
  StringRef.drop_back (StringRef.drop_front (spell Angled FileName)) = FileName.
Proof.
  destruct Angled; unfold spell; simpl; apply drop_back_snoc.
Qed.

Lemma startswith_spell (Angled : bool) (FileName : string) :
  StringRef.startswith (spell Angled FileName) "<" = Angled.
Proof.
  destruct Angled; reflexivity.
Qed.

Lemma respell (Written : string) :
  delimited Written ->
  spell (StringRef.startswith Written "<")
        (StringRef.drop_back (StringRef.drop_front Written)) = Written.
Proof.
  intros (Angled & FileName & ->).
  now rewrite startswith_spell, bare_spell.
Qed.

End StringFacts.

Section ReplayFacts.
Context `{Collaborators}.

Import ReplayPreamble.

Lemma replayInclusion_Some (R : t) (Inc : Inclusion) (calls : list PPCall) :
  replayInclusion R Inc = Some calls ->
  lexesHash R Inc /\ iterationCalls R Inc calls.
Proof.
  unfold replayInclusion, lexesHash, iterationCalls, bareName.
  destruct (LexFromRawLexer _) as [HashTok L1]; simpl.
  destruct (Token_getKind HashTok); try discriminate.
  destruct (LexFromRawLexer _) as [IncludeTok L2].
  destruct (LexIncludeFilename _) as [FilenameTok L3].
  intros E; split; [reflexivity|].
  do 3 eexists; exists FilenameTok.
  destruct (resolve R Inc); injection E as <-; reflexivity.
Qed.

Lemma replayInclusion_lexesHash (R : t) (Inc : Inclusion) :
  lexesHash R Inc -> exists calls, replayInclusion R Inc = Some calls.
Proof.
  unfold replayInclusion, lexesHash.
  destruct (LexFromRawLexer _) as [HashTok L1]; simpl.
  intros ->.
  destruct (LexFromRawLexer _) as [IncludeTok L2].
  destruct (LexIncludeFilename _) as [FilenameTok L3].
  destruct (resolve R Inc); eexists; reflexivity.
Qed.

Lemma FileChanged_exit_builtin (R : t) (Loc : SourceLocation)
  (Kind : CharacteristicKind) (PrevFID : FileID) :
  getBufferIdentifier (SM R) PrevFID = "<built-in>" ->
  FileChanged R Loc ExitFile Kind PrevFID = replay R.
Proof.
  intros E. unfold FileChanged. now rewrite E.
Qed.

Lemma FileChanged_other (R : t) (Loc : SourceLocation)
  (Reason : FileChangeReason) (Kind : CharacteristicKind) (PrevFID : FileID) :
  Reason <> ExitFile -> FileChanged R Loc Reason Kind PrevFID = Some [].
Proof.
  destruct Reason; intros Hneq; try reflexivity. now elim Hneq.
Qed.

Lemma attach_listening (Incs : IncludeStructure) (PP : list PPListener)
  (SrcMgr : SourceManager) (LO : LangOptions) :
  PP <> [] ->
  attach Incs PP SrcMgr LO = PP ++ [ReplayPreambleCallbacks Incs PP SrcMgr LO].
Proof.
  destruct PP; [now intros Hne; elim Hne|reflexivity].
Qed.

Lemma attach_nobody_listening (Incs : IncludeStructure)
  (SrcMgr : SourceManager) (LO : LangOptions) :
  attach Incs [] SrcMgr LO = [].
Proof. reflexivity. Qed.

Lemma replayAll_app (R : t) (Pre Post : list Inclusion) :
  replayAll R (Pre ++ Post) =
  match replayAll R Pre, replayAll R Post with
  | Some a, Some b => Some (a ++ b)
  | _, _ => None
  end.
Proof.
  induction Pre as [|Inc Pre IH]; simpl.
  - destruct (replayAll R Post); reflexivity.
  - destruct (replayInclusion R Inc) as [calls|]; [|reflexivity].
    rewrite IH.
    destruct (replayAll R Pre) as [a|]; [|reflexivity].
    destruct (replayAll R Post) as [b|]; [|reflexivity].
    now rewrite app_assoc.
Qed.

Lemma replayAll_wellFormed (R : t) (Incs : list Inclusion) :
  Forall (wellFormed R) Incs ->
  exists calls,
    replayAll R Incs = Some calls
    /\ directiveSpellings calls = map Inc_Written Incs
    /\ length (filter isInclusionDirective calls) = length Incs.
Proof.
  induction 1 as [|Inc Incs [Hdel Hhash] _ (more & Emore & Hsp & Hlen)]; simpl.
  - exists []; auto.
  - destruct (replayInclusion_lexesHash Hhash) as [calls Ecalls].
    rewrite Ecalls, Emore. exists (calls ++ more); split; [reflexivity|].
    apply replayInclusion_Some in Ecalls.
    destruct Ecalls as (_ & HashLoc & IncludeTok & Range & FilenameTok & ->).
    unfold directiveSpellings in *.
    rewrite flat_map_app, filter_app, length_app, Hsp, Hlen.
    cbn [flat_map directiveSpelling filter isInclusionDirective app map].
    unfold bareName; rewrite (respell Hdel).
    destruct (resolve R Inc); auto.
Qed.

(** C4: one run of [replay] over a cached structure of N well-formed
    main-file include records (the spelling is a delimited file name, the
    recorded offset is that of a [#]) hands the delegate exactly N
    "inclusion observed" notifications, in the order of the records, each
    carrying the bare file name and angled flag that spell the record's
    written form; a record that does not resolve at replay time is followed
    by a "file not found" notification for its file name, and the records
    before and after it are all still delivered. *)
Theorem replay_delivers_every_include (R : t) :
  Forall (wellFormed R) (MainFileIncludes (Includes R)) ->
  exists calls,
    replay R = Some calls
    /\ length (filter isInclusionDirective calls)
       = length (MainFileIncludes (Includes R))
    /\ directiveSpellings calls = map Inc_Written (MainFileIncludes (Includes R))
    /\ forall Pre Inc Post,
         MainFileIncludes (Includes R) = Pre ++ Inc :: Post ->
         resolve R Inc = None ->
         exists before directive after_,
           calls = before ++ directive :: FileNotFound (bareName Inc) :: after_
           /\ directiveSpelling directive = [Inc_Written Inc]
           /\ directiveSpellings before = map Inc_Written Pre
           /\ directiveSpellings after_ = map Inc_Written Post.
Proof.
  intros Hwf. unfold replay.
  destruct (replayAll_wellFormed Hwf) as (calls & Ecalls & Hsp & Hlen).
  exists calls; repeat split; auto.
  intros Pre Inc Post Esplit Hres.
  rewrite Esplit in Hwf, Ecalls.
  apply Forall_app in Hwf; destruct Hwf as [HPre HRest].
  inversion HRest as [|? ? [Hdel Hhash] HPost]; subst.
  destruct (replayAll_wellFormed HPre) as (before & Eb & Hb & _).
  destruct (replayAll_wellFormed HPost) as (after_ & Ea & Ha & _).
  destruct (replayInclusion_lexesHash Hhash) as [mid Emid].
  rewrite replayAll_app, Eb in Ecalls; simpl in Ecalls.
  rewrite Emid, Ea in Ecalls. injection Ecalls as <-.
  apply replayInclusion_Some in Emid.
  destruct Emid as (_ & HashLoc & IncludeTok & Range & FilenameTok & ->).
  rewrite Hres.
  do 3 eexists; split; [reflexivity|].
  repeat split; auto.
  cbn [directiveSpelling]. unfold bareName. now rewrite (respell Hdel).
Qed.

Lemma replayAll_directives (R : t) (Incs : list Inclusion) :
  forall calls, replayAll R Incs = Some calls ->
  forall c, In c calls -> isInclusionDirective c = true ->
  exists Inc HashLoc IncludeTok Range,
    In Inc Incs
    /\ c = InclusionDirective HashLoc IncludeTok (bareName Inc)
             (StringRef.startswith (Inc_Written Inc) "<") Range (resolve R Inc)
             "SearchPath" "RelPath" None (Inc_FileKind Inc).
Proof.
  induction Incs as [|Inc Incs IH]; simpl; intros calls E c Hin Hdir.
  - injection E as <-; contradiction.
  - destruct (replayInclusion R Inc) as [first|] eqn:Efirst; [|discriminate].
    destruct (replayAll R Incs) as [more|]; [|discriminate].
    injection E as <-.
    apply in_app_or in Hin; destruct Hin as [Hin|Hin].
    + apply replayInclusion_Some in Efirst.
      destruct Efirst as (_ & HashLoc & IncludeTok & Range & FilenameTok & ->).
      destruct Hin as [<-|[<-|[]]].
      * exists Inc, HashLoc, IncludeTok, Range; auto.
      * destruct (resolve R Inc); discriminate.
    + destruct (IH more eq_refl c Hin Hdir) as (I & h & t & r & HI & ->).
      exists I, h, t, r; auto.
Qed.

(** C10: every "inclusion observed" notification a run of [replay] hands to
    the delegate carries the fixed strings SearchPath and RelPath as search
    path and relative path and no imported module, while its file name,
    angled flag, file handle and file kind are those of one of the cached
    records: the name between the delimiters of the written spelling,
    whether the spelling starts with an angle bracket, the file the
    resolved path looks up to, and the recorded kind. *)
Theorem replayed_paths_are_placeholders (R : t) (calls : list PPCall)
  (HashLoc : SourceLocation) (IncludeTok : Token) (FileName : string)
  (IsAngled : bool) (Range : CharSourceRange) (File : option FileEntry)
  (SearchPath RelativePath : string) (Imported : option nat)
  (FileType : CharacteristicKind) :
  replay R = Some calls ->
  In (InclusionDirective HashLoc IncludeTok FileName IsAngled Range File
                         SearchPath RelativePath Imported FileType) calls ->
  SearchPath = "SearchPath" /\ RelativePath = "RelPath" /\ Imported = None
  /\ exists Inc,
       In Inc (MainFileIncludes (Includes R))
       /\ FileName = bareName Inc
       /\ IsAngled = StringRef.startswith (Inc_Written Inc) "<"
       /\ File = resolve R Inc
       /\ FileType = Inc_FileKind Inc.
Proof.
  intros E Hin.
  eapply replayAll_directives in Hin; [|exact E|reflexivity].
  destruct Hin as (Inc & h & t & r & HI & Ec).
  injection Ec as -> -> -> -> -> -> -> -> -> ->.
  repeat split; try reflexivity.
  exists Inc; auto.
Qed.

End ReplayFacts.

(** ** The diagnostic store and the include fixer *)

Section StoreFacts.
Context `{Collaborators}.

Variable LevelAdjuster : Level -> Diagnostic -> Level.

Lemma fix_exhausted (F : IncludeFixer.t) (DiagLevel : Level)
  (Info : Diagnostic) (w : World) :
  IncludeFixer.IndexRequestLimit F <= IncludeFixer.IndexRequestCount F ->
  IncludeFixer.fix_ F DiagLevel Info w = (([], F), w).
Proof.
  intros Hfull. unfold IncludeFixer.fix_.
  destruct (Info_UnresolvedName Info); [|reflexivity].
  apply Nat.ltb_ge in Hfull. now rewrite Hfull.
Qed.

Lemma HandleDiagnostic_effects st D w :
  let r := StoreDiags.HandleDiagnostic LevelAdjuster st D w in
  Log (snd r) = Log w
  /\ map summary (fst (fst r))
     = map summary (fst st) ++ [recorded LevelAdjuster D]
  /\ length (IndexRequests (snd r)) + remaining (snd (fst r))
     = length (IndexRequests w) + remaining (snd st).
Proof.
  destruct st as [Output [F|]], D as [DiagLevel Info]; simpl.
  - unfold bind, IncludeFixer.fix_.
    destruct (Info_UnresolvedName Info) as [Name|]; simpl.
    + destruct (Nat.ltb _ _) eqn:Elt; simpl;
        rewrite map_app; repeat split; auto.
      apply Nat.ltb_lt in Elt. rewrite length_app; simpl. lia.
    + rewrite map_app; auto.
  - rewrite map_app; auto.
Qed.

Lemma HandleDiagnostics_effects Ds : forall st w,
  let r := StoreDiags.HandleDiagnostics LevelAdjuster st Ds w in
  Log (snd r) = Log w
  /\ map summary (fst (fst r))
     = map summary (fst st) ++ map (recorded LevelAdjuster) Ds
  /\ length (IndexRequests (snd r)) + remaining (snd (fst r))
     = length (IndexRequests w) + remaining (snd st).
Proof.
  induction Ds as [|D Ds IH]; intros st w; simpl.
  - now rewrite app_nil_r.
  - unfold bind.
    pose proof (HandleDiagnostic_effects st D w) as Hone; simpl in Hone.
    destruct (StoreDiags.HandleDiagnostic LevelAdjuster st D w) as [st1 w1].
    simpl in Hone. destruct Hone as (HL & HS & HR).
    specialize (IH st1 w1); simpl in IH. destruct IH as (HL' & HS' & HR').
    rewrite HL', HS', HS, HR', HR, HL, <- app_assoc. auto.
Qed.

Lemma take_summary (Ctx : option ClangTidyContext) (Output : list Diag) :
  map summary (StoreDiags.take Ctx Output) = map summary Output.
Proof.
  destruct Ctx; simpl; [|reflexivity].
  rewrite map_map; apply map_ext; reflexivity.
Qed.

End StoreFacts.

(** ** ParsedAST::build *)

Section BuildFacts.
Context `{Collaborators}.

Variables (CI : CompilerInvocation) (CompilerInvocationDiags : list Diag)
          (Preamble : option PreambleData) (Buffer : MemoryBuffer)
          (VFS : FileSystem) (Index : option SymbolIndex)
          (Opts : ParseOptions).

Lemma makeFixIncludes_remaining Filename Content :
  remaining (makeFixIncludes Filename Content Preamble VFS Index Opts) <= 5.
Proof.
  unfold makeFixIncludes.
  destruct (SuggestMissingIncludes Opts), Index,
    (getCurrentWorkingDirectory VFS); simpl; lia.
Qed.

Lemma build_prepare_fails (w : World) :
  prepareCompilerInstance (freeing CI) (option_map Preamble_Preamble Preamble)
                          Buffer VFS = None ->
  build CI CompilerInvocationDiags Preamble Buffer VFS Index Opts w = (None, w).
Proof.
  intros E. unfold build, freeing in *. now rewrite E.
Qed.

Lemma build_begin_fails (w : World) (Clang : CompilerInstance) :
  prepareCompilerInstance (freeing CI) (option_map Preamble_Preamble Preamble)
                          Buffer VFS = Some Clang ->
  BeginSourceFile (Clang_Session Clang) = false ->
  build CI CompilerInvocationDiags Preamble Buffer VFS Index Opts w
  = (None,
     mkWorld (Log w ++ [("BeginSourceFile() failed when building AST for "
                         ++ Clang_MainInputFile Clang)%string])
             (IndexRequests w)).
Proof.
  intros E Hb. unfold build, freeing in *. rewrite E, Hb. reflexivity.
Qed.

Ltac exists_unit D := eexists; eexists; exists D.

(** Once the session has started, [build] returns a unit whatever [Execute]
    answers. *)
Lemma build_started (w : World) (Clang : CompilerInstance) :
  prepareCompilerInstance (freeing CI) (option_map Preamble_Preamble Preamble)
                          Buffer VFS = Some Clang ->
  BeginSourceFile (Clang_Session Clang) = true ->
  exists AST w' UnitDiags,
    build CI CompilerInvocationDiags Preamble Buffer VFS Index Opts w
    = (Some AST, w')
    /\ AST_LocalTopLevelDecls AST
       = DeclTrackingASTConsumer.consume
           [] (Execute_DeclGroups (Clang_Session Clang))
    /\ AST_Tokens AST = Execute_Tokens (Clang_Session Clang)
    /\ AST_Diags AST
       = CompilerInvocationDiags
         ++ match Preamble with
            | Some P => Preamble_Diags P
            | None => []
            end
         ++ UnitDiags
    /\ map summary UnitDiags
       = map (recorded
                (levelAdjuster
                   (Some (makeCTContext
                            Opts (MemoryBuffer_getBufferIdentifier Buffer)
                            Clang))))
             (buildDiagnostics Clang)
    /\ Log w'
       = Log w
         ++ match Execute_Error (Clang_Session Clang) with
            | Some Err =>
                [("Execute() failed when building AST for "
                  ++ Clang_MainInputFile Clang ++ ": " ++ Err)%string]
            | None => []
            end
    /\ length (IndexRequests w') <= length (IndexRequests w) + 5.
Proof.
  intros E Hb. unfold build, freeing in *. rewrite E, Hb.
  set (Ctx := makeCTContext Opts (MemoryBuffer_getBufferIdentifier Buffer) Clang).
  set (LA := levelAdjuster (Some Ctx)).
  set (Fixer := makeFixIncludes _ _ Preamble VFS Index Opts).
  pose proof (makeFixIncludes_remaining
                (MemoryBuffer_getBufferIdentifier Buffer) (getBuffer Buffer))
    as Hfix; fold Fixer in Hfix.
  clearbody Fixer.
  destruct Preamble as [P|], Fixer as [F|];
    cbn [Clang_Session Clang_setPPCallbacks setExternalSemaSource
         setTraversalScope setClient Clang_MainInputFile negb
         takeTopLevelDecls Action_TopLevelDecls];
    unfold bind;
    match goal with
    | |- context [StoreDiags.HandleDiagnostics
                    LA ?st (Execute_Diagnostics ?S) w] =>
        pose proof (HandleDiagnostics_effects
                      LA (Execute_Diagnostics S) st w) as H1;
        cbv zeta in H1;
        destruct (StoreDiags.HandleDiagnostics
                    LA st (Execute_Diagnostics S) w) as [st1 w1]
    end;
    cbn [fst snd map app] in H1; destruct H1 as (HL1 & HS1 & HR1);
    destruct (Execute_Error (Clang_Session Clang)) as [Err|];
    cbn [log ret];
    match goal with
    | |- context [StoreDiags.HandleDiagnostics
                    LA ?st (matchAST_Diagnostics ?S) ?w2] =>
        pose proof (HandleDiagnostics_effects
                      LA (matchAST_Diagnostics S) st w2) as H2;
        cbv zeta in H2;
        destruct (StoreDiags.HandleDiagnostics
                    LA st (matchAST_Diagnostics S) w2) as [st2 w3]
    end;
    cbn [fst snd Log IndexRequests] in H2; destruct H2 as (HL2 & HS2 & HR2);
    exists_unit (StoreDiags.take (Some Ctx) (fst st2));
    (split; [reflexivity|]);
    cbn [AST_LocalTopLevelDecls AST_Tokens AST_Diags fst];
    (split; [reflexivity|]); (split; [reflexivity|]);
    (split; [now rewrite <- ?app_assoc|]);
    (split; [rewrite take_summary, HS2, HS1; unfold buildDiagnostics;
             now rewrite map_app|]);
    (split; [rewrite HL2, ?HL1, ?app_nil_r; reflexivity|]);
    cbn [remaining] in *; lia.
Qed.

Lemma build_Some_inv (w : World) (AST : ParsedAST) :
  fst (build CI CompilerInvocationDiags Preamble Buffer VFS Index Opts w)
  = Some AST ->
  exists Clang,
    prepareCompilerInstance (freeing CI)
      (option_map Preamble_Preamble Preamble) Buffer VFS = Some Clang
    /\ BeginSourceFile (Clang_Session Clang) = true.
Proof.
  intros HAST.
  destruct (prepareCompilerInstance (freeing CI)
              (option_map Preamble_Preamble Preamble) Buffer VFS)
    as [Clang|] eqn:E.
  - exists Clang; split; [reflexivity|].
    destruct (BeginSourceFile (Clang_Session Clang)) eqn:Hb; [reflexivity|].
    rewrite (build_begin_fails w E Hb) in HAST. discriminate.
  - rewrite (build_prepare_fails w E) in HAST. discriminate.
Qed.

(** C1: when [prepareCompilerInstance] hands back no instance, [build]
    returns no unit and leaves the log exactly as it found it: this way of
    failing to start the session writes no log entry at all. *)
Theorem prepare_failure_leaves_no_log_entry (w : World) :
  prepareCompilerInstance (freeing CI) (option_map Preamble_Preamble Preamble)
                          Buffer VFS = None ->
  fst (build CI CompilerInvocationDiags Preamble Buffer VFS Index Opts w) = None
  /\ Log (snd (build CI CompilerInvocationDiags Preamble Buffer VFS Index
                     Opts w)) = Log w.
Proof.
  intros E. rewrite (build_prepare_fails w E). auto.
Qed.

(** C2: the diagnostics of a built unit are the configuration-time
    diagnostics, then the preamble's diagnostics when a preamble is
    attached, then one stored diagnostic for each diagnostic emitted while
    this unit was built (by the parse, then by the matchers), in the order
    of emission; without a preamble the list is the first segment followed
    directly by the last. *)
Theorem diagnostics_three_segments (w : World) (AST : ParsedAST) :
  fst (build CI CompilerInvocationDiags Preamble Buffer VFS Index Opts w)
  = Some AST ->
  exists Clang UnitDiags,
    prepareCompilerInstance (freeing CI)
      (option_map Preamble_Preamble Preamble) Buffer VFS = Some Clang
    /\ map summary UnitDiags
       = map (recorded
                (levelAdjuster
                   (Some (makeCTContext
                            Opts (MemoryBuffer_getBufferIdentifier Buffer)
                            Clang))))
             (buildDiagnostics Clang)
    /\ AST_Diags AST
       = CompilerInvocationDiags
         ++ match Preamble with
            | Some P => Preamble_Diags P
            | None => []
            end
         ++ UnitDiags
    /\ (Preamble = None ->
        AST_Diags AST = CompilerInvocationDiags ++ UnitDiags).
Proof.
  intros HAST.
  destruct (build_Some_inv w HAST) as (Clang & E & Hb).
  destruct (build_started w E Hb)
    as (AST' & w' & UnitDiags & Ebuild & _ & _ & HD & HS & _).
  rewrite Ebuild in HAST; injection HAST as <-.
  exists Clang, UnitDiags; repeat split; auto.
  intros HP. rewrite HD. now rewrite HP.
Qed.

(** C3: every declaration in the top-level declaration set of a built unit
    has its location inside the main file, is not an implicit template
    instantiation, and is not an Objective-C method declaration. *)
Theorem top_level_decls_in_main_file (w : World) (AST : ParsedAST) :
  fst (build CI CompilerInvocationDiags Preamble Buffer VFS Index Opts w)
  = Some AST ->
  Forall mainFileTopLevel (AST_LocalTopLevelDecls AST).
Proof.
  intros HAST.
  destruct (build_Some_inv w HAST) as (Clang & E & Hb).
  destruct (build_started w E Hb)
    as (AST' & w' & UnitDiags & Ebuild & HDecls & _).
  rewrite Ebuild in HAST; injection HAST as <-.
  rewrite HDecls. apply consume_mainFileTopLevel.
Qed.

(** C7: when the session was opened and [Execute] then reports an error,
    [build] still returns a unit, assembled from what was collected: the
    declarations the consumer kept, the collected tokens, and the three
    segments of diagnostics; the failure only adds one line to the log. *)
Theorem execute_failure_is_only_logged
  (w : World) (Clang : CompilerInstance) (Err : string) :
  prepareCompilerInstance (freeing CI) (option_map Preamble_Preamble Preamble)
                          Buffer VFS = Some Clang ->
  BeginSourceFile (Clang_Session Clang) = true ->
  Execute_Error (Clang_Session Clang) = Some Err ->
  exists AST w' UnitDiags,
    build CI CompilerInvocationDiags Preamble Buffer VFS Index Opts w
    = (Some AST, w')
    /\ AST_LocalTopLevelDecls AST
       = DeclTrackingASTConsumer.consume
           [] (Execute_DeclGroups (Clang_Session Clang))
    /\ AST_Tokens AST = Execute_Tokens (Clang_Session Clang)
    /\ AST_Diags AST
       = CompilerInvocationDiags
         ++ match Preamble with
            | Some P => Preamble_Diags P
            | None => []
            end
         ++ UnitDiags
    /\ map summary UnitDiags
       = map (recorded
                (levelAdjuster
                   (Some (makeCTContext
                            Opts (MemoryBuffer_getBufferIdentifier Buffer)
                            Clang))))
             (buildDiagnostics Clang)
    /\ Log w'
       = Log w ++ [("Execute() failed when building AST for "
                    ++ Clang_MainInputFile Clang ++ ": " ++ Err)%string].
Proof.
  intros E Hb HErr.
  destruct (build_started w E Hb)
    as (AST & w' & UnitDiags & Ebuild & HDecls & HTok & HD & HS & HLog & _).
  rewrite HErr in HLog.
  exists AST, w', UnitDiags; repeat split; auto.
Qed.

(** C8: whatever diagnostics occur, one build sends at most 5 queries to
    the symbol index; and a fixer that has reached its limit answers a
    diagnostic about an unresolved symbol with no fix and sends no query. *)
Theorem index_queries_bounded :
  (forall w,
     length (IndexRequests
               (snd (build CI CompilerInvocationDiags Preamble Buffer VFS
                           Index Opts w)))
     <= length (IndexRequests w) + 5)
  /\ (forall F DiagLevel Info w,
        IncludeFixer.IndexRequestLimit F <= IncludeFixer.IndexRequestCount F ->
        IncludeFixer.fix_ F DiagLevel Info w = (([], F), w))
  /\ (forall Filename Content F,
        makeFixIncludes Filename Content Preamble VFS Index Opts = Some F ->
        IncludeFixer.IndexRequestLimit F = 5
        /\ IncludeFixer.IndexRequestCount F = 0).
Proof.
  split; [|split].
  - intros w.
    destruct (prepareCompilerInstance (freeing CI)
                (option_map Preamble_Preamble Preamble) Buffer VFS)
      as [Clang|] eqn:E.
    + destruct (BeginSourceFile (Clang_Session Clang)) eqn:Hb.
      * destruct (build_started w E Hb)
          as (AST & w' & UnitDiags & Ebuild & _ & _ & _ & _ & _ & HReq).
        now rewrite Ebuild.
      * rewrite (build_begin_fails w E Hb); simpl; lia.
    + rewrite (build_prepare_fails w E); simpl; lia.
  - intros F DiagLevel Info w. apply fix_exhausted.
  - intros Filename Content F. unfold makeFixIncludes.
    destruct (SuggestMissingIncludes Opts), Index,
      (getCurrentWorkingDirectory VFS); try discriminate.
    intros [= <-]; auto.
Qed.

End BuildFacts.

(** ** buildAST *)

Section BuildASTFacts.
Context `{Collaborators}.

(** C9: when setting the working directory to the compile command's
    directory fails, [buildAST] writes one log line and goes on to [build]
    with the file system it was left with; so whenever the session can be
    started there, a result is returned. *)
Theorem working_directory_failure_is_not_fatal
  (FileName : string) (Invocation : CompilerInvocation)
  (CompilerInvocationDiags : list Diag) (Inputs : ParseInputs)
  (Preamble : option PreambleData) (w : World) (VFS' : FileSystem) :
  setCurrentWorkingDirectory (consumingFS Inputs Preamble)
    (Directory (Inputs_CompileCommand Inputs)) = (VFS', true) ->
  buildAST FileName Invocation CompilerInvocationDiags Inputs Preamble w
  = build Invocation CompilerInvocationDiags Preamble
      (getMemBufferCopy (Inputs_Contents Inputs) FileName) VFS'
      (Inputs_Index Inputs) (Inputs_Opts Inputs)
      (mkWorld
         (Log w
          ++ ["Couldn't set working directory when building the preamble."])
         (IndexRequests w))
  /\ forall Clang,
       prepareCompilerInstance (freeing Invocation)
         (option_map Preamble_Preamble Preamble)
         (getMemBufferCopy (Inputs_Contents Inputs) FileName) VFS'
       = Some Clang ->
       BeginSourceFile (Clang_Session Clang) = true ->
       exists AST,
         fst (buildAST FileName Invocation CompilerInvocationDiags Inputs
                       Preamble w) = Some AST.
Proof.
  intros Hcwd.
  assert (Hrun :
    buildAST FileName Invocation CompilerInvocationDiags Inputs Preamble w
    = build Invocation CompilerInvocationDiags Preamble
        (getMemBufferCopy (Inputs_Contents Inputs) FileName) VFS'
        (Inputs_Index Inputs) (Inputs_Opts Inputs)
        (mkWorld
           (Log w
            ++ ["Couldn't set working directory when building the preamble."])
           (IndexRequests w))).
  { unfold buildAST. fold (consumingFS Inputs Preamble). rewrite Hcwd.
    reflexivity. }
  split; [exact Hrun|].
  intros Clang E Hb. rewrite Hrun.
  destruct (@build_started _ Invocation CompilerInvocationDiags Preamble _
              VFS' (Inputs_Index Inputs) (Inputs_Opts Inputs)
              (mkWorld
                 (Log w
                  ++ ["Couldn't set working directory when building the preamble."])
                 (IndexRequests w)) Clang E Hb)
    as (AST & w' & _ & Ebuild & _).
  exists AST. now rewrite Ebuild.
Qed.

End BuildASTFacts.

(** ** The properties on the sample session *)

Section OnTheSample.

#[local] Existing Instance Sample.collaborators.

Example sample_build_runs :
  let r := build Sample.Invocation Sample.ConfigDiags (Some Sample.Preamble)
                 Sample.Buffer (Sample.FS 0) (Some Sample.Index) Sample.Opts
                 emptyWorld in
  option_map (fun AST => map Diag_ID (AST_Diags AST)) (fst r)
  = Some [20; 30; 1; 2; 9; 9; 9; 9; 9; 9; 9; 9; 2]
  /\ option_map (fun AST => map Diag_Severity (AST_Diags AST)) (fst r)
     = Some [Warning; Warning; Error; Ignored; Error; Error; Error; Error;
             Error; Error; Error; Error; Warning]
  /\ option_map (fun AST => map Decl_ID (AST_LocalTopLevelDecls AST)) (fst r)
     = Some [1; 8]
  /\ snd r = mkWorld [] ["Foo"; "Foo"; "Foo"; "Foo"; "Foo"].
Proof. vm_compute. repeat split. Qed.

Example sample_replay_runs :
  option_map (map (fun c => match c with
                            | InclusionDirective _ _ f a _ file _ _ _ _ =>
                                (f, a, file)
                            | FileSkipped _ _ _ => ("skipped", false, None)
                            | FileNotFound f => (f, false, None)
                            end))
             (ReplayPreamble.replay Sample.Replayer)
  = Some [("a.h", true, Some Sample.a_h); ("skipped", false, None);
          ("gone.h", false, None); ("gone.h", false, None)].
Proof. vm_compute. reflexivity. Qed.

Lemma prepare_failure_leaves_no_log_entry_witness :
  fst (build Sample.BadInvocation Sample.ConfigDiags (Some Sample.Preamble)
             Sample.Buffer (Sample.FS 0) (Some Sample.Index) Sample.Opts
             emptyWorld) = None
  /\ Log (snd (build Sample.BadInvocation Sample.ConfigDiags
                     (Some Sample.Preamble) Sample.Buffer (Sample.FS 0)
                     (Some Sample.Index) Sample.Opts emptyWorld))
     = Log emptyWorld.
Proof.
  apply prepare_failure_leaves_no_log_entry. reflexivity.
Defined.

Lemma diagnostics_three_segments_witness :
  exists AST Clang UnitDiags,
    fst (build Sample.Invocation Sample.ConfigDiags (Some Sample.Preamble)
               Sample.Buffer (Sample.FS 0) (Some Sample.Index) Sample.Opts
               emptyWorld) = Some AST
    /\ map summary UnitDiags
       = map (recorded (levelAdjuster
                          (Some (makeCTContext Sample.Opts Sample.FileName
                                               Clang))))
             (buildDiagnostics Clang)
    /\ AST_Diags AST
       = Sample.ConfigDiags ++ Preamble_Diags Sample.Preamble ++ UnitDiags.
Proof.
  destruct (fst (build Sample.Invocation Sample.ConfigDiags
                       (Some Sample.Preamble) Sample.Buffer (Sample.FS 0)
                       (Some Sample.Index) Sample.Opts emptyWorld))
    as [AST|] eqn:E; [|vm_compute in E; discriminate E].
  destruct (diagnostics_three_segments _ _ _ _ _ _ _ _ E)
    as (Clang & UnitDiags & _ & HS & HD & _).
  exists AST, Clang, UnitDiags; auto.
Defined.

Lemma top_level_decls_in_main_file_witness :
  exists AST,
    fst (build Sample.Invocation Sample.ConfigDiags (Some Sample.Preamble)
               Sample.Buffer (Sample.FS 0) (Some Sample.Index) Sample.Opts
               emptyWorld) = Some AST
    /\ Forall mainFileTopLevel (AST_LocalTopLevelDecls AST).
Proof.
  destruct (fst (build Sample.Invocation Sample.ConfigDiags
                       (Some Sample.Preamble) Sample.Buffer (Sample.FS 0)
                       (Some Sample.Index) Sample.Opts emptyWorld))
    as [AST|] eqn:E; [|vm_compute in E; discriminate E].
  exists AST; split; [reflexivity|].
  exact (top_level_decls_in_main_file _ _ _ _ _ _ _ _ E).
Defined.

Lemma replay_delivers_every_include_witness :
  exists calls,
    ReplayPreamble.replay Sample.Replayer = Some calls
    /\ length (filter isInclusionDirective calls) = 2
    /\ directiveSpellings calls = ["<a.h>"; spell false "gone.h"].
Proof.
  destruct (@replay_delivers_every_include
              Sample.collaborators Sample.Replayer)
    as (calls & E & Hlen & Hsp & _).
  - repeat constructor.
    + exists true, "a.h"; reflexivity.
    + exists false, "gone.h"; reflexivity.
  - exists calls; auto.
Defined.

Lemma escalation_beats_suppression_witness :
  locatedInMainFile Sample.R_warning
  /\ shouldSuppressDiagnostic Warning Sample.R_warning Sample.TidyCtx false
     = true
  /\ levelAdjuster (Some Sample.TidyCtx) Warning Sample.R_warning = Error.
Proof.
  split; [exists Sample.SrcMgr; split; reflexivity|].
  split; [reflexivity|].
  apply escalation_beats_suppression; [discriminate|reflexivity].
Defined.

Lemma suppression_when_not_escalated_witness :
  levelAdjuster (Some Sample.TidyCtx) Warning Sample.S_warning = Ignored
  /\ (levelAdjuster (Some Sample.TidyCtx) Warning Sample.S_in_header = Warning
      \/ (Warning = Warning
          /\ levelAdjuster (Some Sample.TidyCtx) Warning Sample.S_in_header
             = Error)).
Proof.
  split.
  - apply (proj1 (suppression_when_not_escalated
                    Sample.TidyCtx Warning Sample.S_warning)).
    + discriminate.
    + intros [_ Htreat]; discriminate Htreat.
    + exists Sample.SrcMgr; split; reflexivity.
    + reflexivity.
  - apply (proj2 (suppression_when_not_escalated
                    Sample.TidyCtx Warning Sample.S_in_header)).
    intros (InfoSM & _ & Hin); discriminate Hin.
Defined.

Lemma execute_failure_is_only_logged_witness :
  exists AST w',
    build Sample.Invocation Sample.ConfigDiags (Some Sample.Preamble)
          Sample.Buffer (Sample.FS 2) (Some Sample.Index) Sample.Opts
          emptyWorld = (Some AST, w')
    /\ map Decl_ID (AST_LocalTopLevelDecls AST) = [1; 8]
    /\ Log w'
       = ["Execute() failed when building AST for /src/main.cpp: parse aborted"].
Proof.
  destruct (@execute_failure_is_only_logged
              Sample.collaborators Sample.Invocation Sample.ConfigDiags
              (Some Sample.Preamble)
              Sample.Buffer (Sample.FS 2) (Some Sample.Index) Sample.Opts
              emptyWorld
              (mkCompilerInstance
                 Sample.FileName 17 Sample.SrcMgr Sample.Ctx
                 [SessionCallbacks 0] false None StoreDiagsClient
                 (Sample.session true (Some "parse aborted")))
              "parse aborted")
    as (AST & w' & UnitDiags & E & HDecls & _ & _ & _ & HLog);
    try reflexivity.
  exists AST, w'; repeat split; auto.
  rewrite HDecls; reflexivity.
Defined.

Lemma index_queries_bounded_witness :
  length (IndexRequests
            (snd (build Sample.Invocation Sample.ConfigDiags
                        (Some Sample.Preamble) Sample.Buffer (Sample.FS 0)
                        (Some Sample.Index) Sample.Opts emptyWorld)))
  <= length (IndexRequests emptyWorld) + 5
  /\ IncludeFixer.fix_ Sample.ExhaustedFixer Error (Sample.unresolved 6)
                       emptyWorld
     = (([], Sample.ExhaustedFixer), emptyWorld).
Proof.
  destruct (@index_queries_bounded
              Sample.collaborators Sample.Invocation Sample.ConfigDiags
              (Some Sample.Preamble)
              Sample.Buffer (Sample.FS 0) (Some Sample.Index) Sample.Opts)
    as (Hbound & Hfull & _).
  split; [apply Hbound|].
  apply Hfull. simpl. lia.
Defined.

Lemma working_directory_failure_is_not_fatal_witness :
  exists AST,
    fst (buildAST Sample.FileName Sample.Invocation Sample.ConfigDiags
                  (Sample.Inputs "/nonexistent") (Some Sample.Preamble)
                  emptyWorld) = Some AST.
Proof.
  destruct (@working_directory_failure_is_not_fatal
              Sample.collaborators Sample.FileName Sample.Invocation
              Sample.ConfigDiags
              (Sample.Inputs "/nonexistent") (Some Sample.Preamble)
              emptyWorld (Sample.FS 0) eq_refl)
    as [_ Hresult].
  eapply Hresult; reflexivity.
Defined.

Lemma replayed_paths_are_placeholders_witness :
  ReplayPreamble.replay Sample.Replayer = Some Sample.ReplayedCalls
  /\ Forall (fun c =>
               match c with
               | InclusionDirective _ _ _ _ _ _ SearchPath RelativePath _ _ =>
                   SearchPath = "SearchPath" /\ RelativePath = "RelPath"
               | _ => True
               end) Sample.ReplayedCalls.
Proof.
  split; [reflexivity|].
  apply Forall_forall; intros c Hin.
  destruct c; auto.
  eapply (@replayed_paths_are_placeholders
            Sample.collaborators Sample.Replayer) in Hin;
    [tauto|reflexivity].
Defined.

End OnTheSample.

(** ** CRunnerUtils.h *)

Module CRunnerUtilsFacts.
Import CRunnerUtils.
Local Open Scope Z_scope.

(** *** dropFront *)

Lemma store_length (res : list Z) (k : nat) (v : Z) :
  length (store res k v) = length res.
Proof.
  revert k; induction res as [|x res IH]; intros [|k]; simpl; auto.
Qed.

Lemma nth_store (res : list Z) (k j : nat) (v d : Z) :
  nth j (store res k v) d
  = if (Nat.eqb j k && Nat.ltb k (length res))%bool then v else nth j res d.
Proof.
  revert k j; induction res as [|x res IH]; intros [|k] [|j]; simpl; auto;
    try (now rewrite andb_false_r).
Qed.

Lemma dropFront_from_length (count i : nat) (arr res : list Z) :
  length (dropFront_from count i arr res) = length res.
Proof.
  revert i res; induction count as [|c IH]; intros i res; simpl; auto.
  now rewrite IH, store_length.
Qed.

Lemma nth_dropFront_from (count : nat) : forall (i : nat) (arr res : list Z)
  (j : nat) (d : Z),
  (1 <= i)%nat ->
  nth j (dropFront_from count i arr res) d
  = if (Nat.leb (i - 1) j && Nat.ltb j (i - 1 + count)
        && Nat.ltb j (length res))%bool
    then nth (S j) arr 0
    else nth j res d.
Proof.
  induction count as [|c IH]; intros i arr res j d Hi; simpl.
  - replace (i - 1 + 0)%nat with (i - 1)%nat by lia.
    destruct (Nat.leb (i - 1) j) eqn:E1, (Nat.ltb j (i - 1)) eqn:E2;
      simpl; auto.
    apply Nat.leb_le in E1; apply Nat.ltb_lt in E2; lia.
  - rewrite IH by lia. rewrite store_length, nth_store.
    replace (S i - 1)%nat with i by lia.
    destruct (Nat.leb i j) eqn:E1, (Nat.ltb j (i + c)) eqn:E2,
      (Nat.ltb j (length res)) eqn:E3, (Nat.eqb j (i - 1)) eqn:E4,
      (Nat.ltb (i - 1) (length res)) eqn:E5,
      (Nat.leb (i - 1) j) eqn:E6, (Nat.ltb j (i - 1 + S c)) eqn:E7;
      simpl; auto;
      repeat match goal with
        | H : Nat.leb _ _ = true |- _ => apply Nat.leb_le in H
        | H : Nat.leb _ _ = false |- _ => apply Nat.leb_gt in H
        | H : Nat.ltb _ _ = true |- _ => apply Nat.ltb_lt in H
        | H : Nat.ltb _ _ = false |- _ => apply Nat.ltb_ge in H
        | H : Nat.eqb _ _ = true |- _ => apply Nat.eqb_eq in H
        | H : Nat.eqb _ _ = false |- _ => apply Nat.eqb_neq in H
        end; try lia.
    subst j. replace (S (i - 1)) with i by lia. reflexivity.
Qed.

Lemma nth_dropFront (N : nat) (arr res : list Z) (j : nat) (d : Z) :
  nth j (dropFront N arr res) d
  = if (Nat.ltb j (N - 1) && Nat.ltb j (length res))%bool
    then nth (S j) arr 0 else nth j res d.
Proof.
  unfold dropFront. rewrite nth_dropFront_from by lia. reflexivity.
Qed.

Lemma dropFront_tl (N : nat) (arr res : list Z) :
  length arr = N -> length res = (N - 1)%nat -> dropFront N arr res = tl arr.
Proof.
  intros Ha Hr.
  apply nth_ext with (d := 0) (d' := 0).
  - unfold dropFront. rewrite dropFront_from_length, Hr.
    destruct arr; simpl in *; lia.
  - intros j Hj. unfold dropFront in Hj.
    rewrite dropFront_from_length in Hj.
    rewrite nth_dropFront.
    assert (Nat.ltb j (N - 1) = true) as -> by (apply Nat.ltb_lt; lia).
    assert (Nat.ltb j (length res) = true) as -> by now apply Nat.ltb_lt.
    destruct arr; simpl; [destruct j|]; reflexivity.
Qed.

(** [dropFront<N>] writes [arr[1..N-1]] to the first [N-1] positions of
    [res], in order, and touches nothing else; when [res] has exactly
    [N-1] elements the result is the tail of [arr], whatever [res] held
    before. *)
Theorem dropFront_writes_the_tail (N : nat) (arr res : list Z) :
  length (dropFront N arr res) = length res
  /\ (forall j d, (j < N - 1)%nat -> (j < length res)%nat ->
        nth j (dropFront N arr res) d = nth (S j) arr 0)
  /\ (forall j d, (N - 1 <= j)%nat ->
        nth j (dropFront N arr res) d = nth j res d)
  /\ (length arr = N -> length res = (N - 1)%nat ->
      dropFront N arr res = tl arr).
Proof.
  split; [apply dropFront_from_length|].
  split; [|split].
  - intros j d H1 H2. rewrite nth_dropFront.
    apply Nat.ltb_lt in H1, H2. now rewrite H1, H2.
  - intros j d H1. rewrite nth_dropFront.
    apply Nat.ltb_ge in H1. now rewrite H1.
  - apply dropFront_tl.
Qed.

End CRunnerUtilsFacts.

Module CRunnerUtilsPowers.
Import CRunnerUtils.
Local Open Scope Z_scope.

Lemma wrap32_small (z : Z) : isUnsigned z -> wrap32 z = z.
Proof. intros Hz. unfold wrap32. now apply Z.mod_small. Qed.

Lemma land_pred_pow2 (k : Z) : 0 <= k -> Z.land (2 ^ k) (2 ^ k - 1) = 0.
Proof.
  intros Hk. replace (2 ^ k - 1) with (Z.ones k)
    by (rewrite Z.ones_equiv; lia).
  rewrite Z.land_ones by assumption. apply Z.mod_same.
  apply Z.pow_nonzero; lia.
Qed.

Lemma land_pred_zero (N : Z) :
  0 < N -> Z.land N (N - 1) = 0 -> powerOfTwo N.
Proof.
  intros Hpos Hland.
  pose proof (Z.log2_spec N Hpos) as [Hlo Hhi].
  pose proof (Z.log2_nonneg N) as Hk.
  destruct (Z.eq_dec N (2 ^ Z.log2 N)) as [E|Hne].
  - exists (Z.log2 N); auto.
  - exfalso.
    assert (Hlog : Z.log2 (N - 1) = Z.log2 N).
    { apply Z.log2_unique; [assumption|]. lia. }
    assert (Hb1 : Z.testbit N (Z.log2 N) = true) by now apply Z.bit_log2.
    assert (Hb2 : Z.testbit (N - 1) (Z.log2 N) = true).
    { rewrite <- Hlog. apply Z.bit_log2.
      assert (0 < 2 ^ Z.log2 N) by (apply Z.pow_pos_nonneg; lia). lia. }
    assert (Hb : Z.testbit (Z.land N (N - 1)) (Z.log2 N) = true)
      by now rewrite Z.land_spec, Hb1, Hb2.
    rewrite Hland, Z.bits_0 in Hb. discriminate.
Qed.

Lemma isPowerOf2_spec (N : Z) :
  isUnsigned N -> (isPowerOf2 N = true <-> N = 0 \/ powerOfTwo N).
Proof.
  intros [Hlo Hhi]. unfold isPowerOf2.
  destruct (Z.eq_dec N 0) as [->|Hnz].
  - split; auto.
  - rewrite wrap32_small by (unfold isUnsigned; lia).
    rewrite Z.eqb_eq. split.
    + intros Hland. right. apply land_pred_zero; [lia|assumption].
    + intros [E|(k & Hk & ->)]; [contradiction|]. now apply land_pred_pow2.
Qed.

(** [isPowerOf2<N>()] holds exactly for 0 and for the powers of two. *)
Theorem isPowerOf2_iff (N : Z) :
  isUnsigned N -> (isPowerOf2 N = true <-> N = 0 \/ powerOfTwo N).
Proof.
  apply isPowerOf2_spec.
Qed.

Lemma powerOfTwo_pos (N : Z) : powerOfTwo N -> 1 <= N.
Proof.
  intros (k & Hk & ->).
  assert (0 < 2 ^ k) by (apply Z.pow_pos_nonneg; lia). lia.
Qed.

Lemma powerOfTwo_double (N : Z) : powerOfTwo N -> powerOfTwo (2 * N).
Proof.
  intros (k & Hk & ->). exists (k + 1); split; [lia|].
  rewrite Z.pow_add_r by lia. lia.
Qed.

(** Between a power of two and its double there is no other one. *)
Lemma powerOfTwo_gap (P Q : Z) :
  powerOfTwo P -> powerOfTwo Q -> P < Q -> 2 * P <= Q.
Proof.
  intros (p & Hp & ->) (q & Hq & ->) Hlt.
  assert (p < q) by (apply (Z.pow_lt_mono_r_iff 2); lia).
  replace (2 * 2 ^ p) with (2 ^ (p + 1)) by (rewrite Z.pow_add_r; lia).
  apply Z.pow_le_mono_r; lia.
Qed.

Lemma nextPowerOf2_depth_S (d : nat) (N : Z) :
  nextPowerOf2_depth (S d) N
  = if Z.eqb N 0 then 1
    else if Z.eqb N 1 then 1
    else if isPowerOf2 N then N
    else wrap32 (2 * nextPowerOf2_depth d (wrap32 (N + 1) / 2)).
Proof. reflexivity. Qed.

Opaque nextPowerOf2_depth.

Lemma nextPowerOf2_depth_0 (N : Z) :
  nextPowerOf2_depth 0 N
  = if Z.eqb N 0 then 1
    else if Z.eqb N 1 then 1
    else if isPowerOf2 N then N
    else 0.
Proof.
  Transparent nextPowerOf2_depth. reflexivity. Opaque nextPowerOf2_depth.
Qed.

Lemma nextPowerOf2_depth_enough (d : nat) : forall (N : Z) (d' : nat),
  0 <= N <= 2 ^ Z.of_nat d -> N < 2 ^ 32 -> (d <= d')%nat ->
  nextPowerOf2_depth d' N = nextPowerOf2_depth d N.
Proof.
  induction d as [|d IH]; intros N d' HN H32 Hd.
  - assert (N = 0 \/ N = 1) as [-> | ->] by (simpl in HN; lia);
      destruct d'; rewrite ?nextPowerOf2_depth_S, ?nextPowerOf2_depth_0;
      reflexivity.
  - destruct d' as [|d']; [lia|]. rewrite !nextPowerOf2_depth_S.
    destruct (Z.eqb N 0) eqn:E0; [reflexivity|].
    destruct (Z.eqb N 1) eqn:E1; [reflexivity|].
    destruct (isPowerOf2 N) eqn:Ep; [reflexivity|].
    apply Z.eqb_neq in E0, E1.
    assert (Hhalf : 0 <= wrap32 (N + 1) / 2 <= 2 ^ Z.of_nat d
                    /\ wrap32 (N + 1) / 2 < 2 ^ 32).
    { unfold wrap32.
      assert (0 <= (N + 1) mod 2 ^ 32 <= N + 1).
      { split; [apply Z.mod_pos_bound; lia|apply Z.mod_le; lia]. }
      rewrite Nat2Z.inj_succ, Z.pow_succ_r in HN by lia.
      assert (0 < 2 ^ Z.of_nat d) by (apply Z.pow_pos_nonneg; lia).
      split; [split|].
      - apply Z.div_pos; lia.
      - apply Z.div_le_upper_bound; [lia|].
        destruct (Z.eq_dec N (2 * 2 ^ Z.of_nat d)) as [E|]; [|lia].
        exfalso.
        assert (isPowerOf2 N = true); [|congruence].
        apply isPowerOf2_spec; [unfold isUnsigned; lia|].
        right. exists (Z.of_nat d + 1). split; [lia|].
        rewrite Z.pow_add_r; lia.
      - apply Z.div_lt_upper_bound; lia. }
    destruct Hhalf as [Hh1 Hh2].
    now rewrite (IH _ d') by (auto; lia).
Qed.

Lemma nextPowerOf2_unfold (N : Z) :
  isUnsigned N ->
  nextPowerOf2 N
  = if Z.eqb N 0 then 1
    else if Z.eqb N 1 then 1
    else if isPowerOf2 N then N
    else wrap32 (2 * nextPowerOf2 (wrap32 (N + 1) / 2)).
Proof.
  intros [Hlo Hhi]. unfold nextPowerOf2.
  rewrite (nextPowerOf2_depth_S 31 N).
  destruct (Z.eqb N 0) eqn:E0; [reflexivity|].
  destruct (Z.eqb N 1) eqn:E1; [reflexivity|].
  destruct (isPowerOf2 N) eqn:Ep; [reflexivity|].
  rewrite (@nextPowerOf2_depth_enough 31 (wrap32 (N + 1) / 2) 32);
    [reflexivity| | |lia].
  - unfold wrap32.
    assert (0 <= (N + 1) mod 2 ^ 32 < 2 ^ 32) by (apply Z.mod_pos_bound; lia).
    split; [apply Z.div_pos; lia|].
    apply Z.div_le_upper_bound; [lia|].
    replace (2 ^ Z.of_nat 31) with (2 ^ 31) by reflexivity.
    lia.
  - unfold wrap32.
    assert (0 <= (N + 1) mod 2 ^ 32 < 2 ^ 32) by (apply Z.mod_pos_bound; lia).
    apply Z.div_lt_upper_bound; lia.
Qed.

(** The template recursion of [nextPowerOf2] bottoms out within 32
    instantiations for every [unsigned] argument: the function satisfies
    the equations of its three definitions. *)
Theorem nextPowerOf2_equations (N : Z) :
  isUnsigned N ->
  nextPowerOf2 N
  = if Z.eqb N 0 then 1
    else if Z.eqb N 1 then 1
    else if isPowerOf2 N then N
    else wrap32 (2 * nextPowerOf2 (wrap32 (N + 1) / 2)).
Proof.
  apply nextPowerOf2_unfold.
Qed.

Transparent nextPowerOf2_depth.

End CRunnerUtilsPowers.

Module CRunnerUtilsVectors.
Import CRunnerUtils CRunnerUtilsPowers.
Local Open Scope Z_scope.

Lemma half_up_bounds (N : Z) :
  2 <= N -> 1 <= (N + 1) / 2 < N /\ N <= 2 * ((N + 1) / 2) <= N + 1.
Proof.
  intros HN.
  pose proof (Z.div_mod (N + 1) 2 ltac:(lia)) as Hdm.
  pose proof (Z.mod_pos_bound (N + 1) 2 ltac:(lia)) as Hm.
  lia.
Qed.

Lemma nextPowerOf2_range (N : Z) :
  1 <= N <= 2 ^ 31 ->
  powerOfTwo (nextPowerOf2 N) /\ N <= nextPowerOf2 N < 2 * N.
Proof.
  induction N as [N IH] using (well_founded_induction (Z.lt_wf 0)).
  intros [Hlo Hhi].
  rewrite nextPowerOf2_unfold by (unfold isUnsigned; lia).
  destruct (Z.eqb N 0) eqn:E0; [apply Z.eqb_eq in E0; lia|].
  destruct (Z.eqb N 1) eqn:E1.
  { apply Z.eqb_eq in E1; subst N.
    split; [exists 0; split; [lia|reflexivity]|lia]. }
  apply Z.eqb_neq in E1.
  destruct (isPowerOf2 N) eqn:Ep.
  { apply isPowerOf2_spec in Ep; [|unfold isUnsigned; lia].
    destruct Ep as [?|Hp]; [lia|]. split; [assumption|lia]. }
  assert (Hnot : ~ powerOfTwo N).
  { intros Hp.
    assert (isPowerOf2 N = true); [|congruence].
    apply isPowerOf2_spec; [unfold isUnsigned; lia|now right]. }
  assert (N <> 2 ^ 31).
  { intros ->. apply Hnot. exists 31; split; [lia|reflexivity]. }
  rewrite (@wrap32_small (N + 1)) by (unfold isUnsigned; lia).
  destruct (@half_up_bounds N ltac:(lia)) as [[HM1 HM2] [HM3 HM4]].
  destruct (IH ((N + 1) / 2)) as [Hp [Hr1 Hr2]]; [lia|lia|].
  set (r := nextPowerOf2 ((N + 1) / 2)) in *.
  assert (r <> N) by (intros ->; contradiction).
  rewrite wrap32_small by (unfold isUnsigned; lia).
  split; [now apply powerOfTwo_double|lia].
Qed.

(** The two [static_assert]s of [Vector1D] hold for every array size from 1
    to 2^31 bytes: a size that is a power of two is its own next power of
    two, and any other size lies strictly between half of its next power
    of two and that power; either way the padded size is a power of two. *)
Theorem Vector1D_static_asserts (Size : Z) :
  1 <= Size <= 2 ^ 31 ->
  (isPowerOf2 Size = true -> nextPowerOf2 Size = Size)
  /\ (isPowerOf2 Size = false ->
      nextPowerOf2 Size > Size /\ nextPowerOf2 Size < 2 * Size)
  /\ Size + Vector1D_padding Size = nextPowerOf2 Size
  /\ powerOfTwo (Size + Vector1D_padding Size).
Proof.
  intros HS.
  destruct (@nextPowerOf2_range Size HS) as [Hp [H1 H2]].
  assert (Hpow : isPowerOf2 Size = true -> nextPowerOf2 Size = Size).
  { intros Ep. rewrite nextPowerOf2_unfold by (unfold isUnsigned; lia).
    rewrite Ep. destruct (Z.eqb Size 0) eqn:E0; [apply Z.eqb_eq in E0; lia|].
    destruct (Z.eqb Size 1) eqn:E1; [apply Z.eqb_eq in E1; lia|reflexivity]. }
  assert (Hnpow : isPowerOf2 Size = false -> nextPowerOf2 Size <> Size).
  { intros Ep E. rewrite E in Hp.
    assert (isPowerOf2 Size = true); [|congruence].
    apply isPowerOf2_spec; [unfold isUnsigned; lia|now right]. }
  split; [assumption|].
  split; [intros Ep; specialize (Hnpow Ep); lia|].
  unfold Vector1D_padding.
  destruct (isPowerOf2 Size) eqn:Ep.
  - rewrite Hpow in Hp |- * by reflexivity.
    split; [lia|]. now rewrite Z.add_0_r.
  - replace (Size + (nextPowerOf2 Size - Size)) with (nextPowerOf2 Size)
      by lia.
    auto.
Qed.

(** [nextPowerOf2<N>()] is the least power of two that is at least [N],
    for [N] from 1 to 2^31. *)
Theorem nextPowerOf2_least (N Q : Z) :
  1 <= N <= 2 ^ 31 -> powerOfTwo Q -> N <= Q ->
  powerOfTwo (nextPowerOf2 N) /\ N <= nextPowerOf2 N /\ nextPowerOf2 N <= Q.
Proof.
  intros HN HQ HNQ.
  destruct (@nextPowerOf2_range N HN) as [Hp [H1 H2]].
  repeat split; auto.
  destruct (Z_le_gt_dec (nextPowerOf2 N) Q) as [|Hgt]; [assumption|].
  pose proof (powerOfTwo_gap HQ Hp ltac:(lia)). lia.
Qed.

(** Above 2^31 the doubling leaves [unsigned]: for every [N] strictly
    between 2^31 and 2^32 - 1 the result is 0, and for 2^32 - 1, where
    [N + 1] itself wraps to 0, it is 2. *)
Theorem nextPowerOf2_wraps (N : Z) :
  2 ^ 31 < N < 2 ^ 32 ->
  isPowerOf2 N = false
  /\ (N < 2 ^ 32 - 1 -> nextPowerOf2 N = 0)
  /\ (N = 2 ^ 32 - 1 -> nextPowerOf2 N = 2).
Proof.
  intros [Hlo Hhi].
  assert (P31 : powerOfTwo (2 ^ 31)) by (exists 31; split; [lia|reflexivity]).
  assert (P30 : powerOfTwo (2 ^ 30)) by (exists 30; split; [lia|reflexivity]).
  assert (P32 : powerOfTwo (2 ^ 32)) by (exists 32; split; [lia|reflexivity]).
  assert (Ep : isPowerOf2 N = false).
  { destruct (isPowerOf2 N) eqn:Ep; [|reflexivity]. exfalso.
    apply isPowerOf2_spec in Ep; [|unfold isUnsigned; lia].
    destruct Ep as [?|Hp]; [lia|].
    pose proof (powerOfTwo_gap P31 Hp ltac:(lia)).
    replace (2 * 2 ^ 31) with (2 ^ 32) in * by reflexivity. lia. }
  split; [assumption|].
  assert (Heq : nextPowerOf2 N
                = wrap32 (2 * nextPowerOf2 (wrap32 (N + 1) / 2))).
  { rewrite nextPowerOf2_unfold at 1 by (unfold isUnsigned; lia).
    rewrite Ep.
    destruct (Z.eqb N 0) eqn:E0; [apply Z.eqb_eq in E0; lia|].
    destruct (Z.eqb N 1) eqn:E1; [apply Z.eqb_eq in E1; lia|reflexivity]. }
  split.
  - intros Hmax. rewrite Heq.
    rewrite (@wrap32_small (N + 1)) by (unfold isUnsigned; lia).
    destruct (@half_up_bounds N ltac:(lia)) as [[HM1 HM2] [HM3 HM4]].
    destruct (@nextPowerOf2_range ((N + 1) / 2)) as [Hp [Hr1 Hr2]]; [lia|].
    set (r := nextPowerOf2 ((N + 1) / 2)) in *.
    pose proof (powerOfTwo_gap P30 Hp ltac:(lia)) as Hge.
    replace (2 * 2 ^ 30) with (2 ^ 31) in Hge by reflexivity.
    assert (r = 2 ^ 31) as ->.
    { destruct (Z.eq_dec r (2 ^ 31)) as [|Hne]; [assumption|].
      pose proof (powerOfTwo_gap P31 Hp ltac:(lia)) as Hge'.
      replace (2 * 2 ^ 31) with (2 ^ 32) in Hge' by reflexivity. lia. }
    reflexivity.
  - intros ->. rewrite Heq. reflexivity.
Qed.

(** [nextPowerOf2] is monotone and idempotent on 1 .. 2^31. *)
Theorem nextPowerOf2_monotone_idempotent (N N' : Z) :
  1 <= N <= N' -> N' <= 2 ^ 31 ->
  nextPowerOf2 N <= nextPowerOf2 N'
  /\ nextPowerOf2 (nextPowerOf2 N) = nextPowerOf2 N.
Proof.
  intros HN HN'.
  destruct (@nextPowerOf2_range N ltac:(lia)) as [Hp [H1 H2]].
  destruct (@nextPowerOf2_range N' ltac:(lia)) as [Hp' [H1' H2']].
  split.
  - destruct (Z_le_gt_dec (nextPowerOf2 N) (nextPowerOf2 N')) as [|Hgt];
      [assumption|].
    pose proof (powerOfTwo_gap Hp' Hp ltac:(lia)). lia.
  - assert (P31 : powerOfTwo (2 ^ 31))
      by (exists 31; split; [lia|reflexivity]).
    assert (nextPowerOf2 N <= 2 ^ 31).
    { destruct (Z_le_gt_dec (nextPowerOf2 N) (2 ^ 31)) as [|Hgt];
        [assumption|].
      pose proof (powerOfTwo_gap P31 Hp ltac:(lia)). lia. }
    rewrite (@nextPowerOf2_unfold (nextPowerOf2 N))
      by (unfold isUnsigned; lia).
    assert (isPowerOf2 (nextPowerOf2 N) = true) as ->.
    { apply isPowerOf2_spec; [unfold isUnsigned; lia|now right]. }
    destruct (Z.eqb (nextPowerOf2 N) 0) eqn:E0;
      [apply Z.eqb_eq in E0; lia|].
    destruct (Z.eqb (nextPowerOf2 N) 1) eqn:E1;
      [apply Z.eqb_eq in E1; lia|reflexivity].
Qed.

End CRunnerUtilsVectors.

Module CRunnerUtilsMemRefs.
Import CRunnerUtils CRunnerUtilsFacts.
Local Open Scope Z_scope.


Lemma wrap64_isInt64 (z : Z) : isInt64 (wrap64 z).
Proof.
  unfold wrap64, isInt64.
  pose proof (Z.mod_pos_bound (z + 2 ^ 63) (2 ^ 64) ltac:(lia)). lia.
Qed.

Lemma wrap64_add_wrap64 (a b : Z) : wrap64 (a + wrap64 b) = wrap64 (a + b).
Proof.
  unfold wrap64. f_equal.
  replace (a + ((b + 2 ^ 63) mod 2 ^ 64 - 2 ^ 63) + 2 ^ 63)
    with (a + (b + 2 ^ 63) mod 2 ^ 64) by lia.
  rewrite Z.add_mod_idemp_r by lia. f_equal. lia.
Qed.

Lemma subscript_tl (N : nat) (M res : StridedMemRefType) (idx : Z) :
  length (sizes M) = N -> length (strides M) = N ->
  length (sizes res) = (N - 1)%nat -> length (strides res) = (N - 1)%nat ->
  subscript N M res idx
  = mkStridedMemRef (basePtr M) (data M)
      (wrap64 (offset M + idx * nth 0 (strides M) 0))
      (tl (sizes M)) (tl (strides M)).
Proof.
  intros H1 H2 H3 H4. unfold subscript.
  now rewrite wrap64_add_wrap64, !dropFront_tl.
Qed.

(** [operator[]] of a memref of rank [N] above 1 gives the memref of rank
    [N - 1] over the same buffer, moved by [idx] times the first stride
    (on 64 bits), with the remaining sizes and strides; nothing of what the
    fresh descriptor held before survives. *)
Theorem subscript_drops_first_dimension
  (N : nat) (M res : StridedMemRefType) (idx : Z) :
  (2 <= N)%nat ->
  length (sizes M) = N -> length (strides M) = N ->
  length (sizes res) = (N - 1)%nat -> length (strides res) = (N - 1)%nat ->
  basePtr (subscript N M res idx) = basePtr M
  /\ data (subscript N M res idx) = data M
  /\ offset (subscript N M res idx)
     = wrap64 (offset M + idx * nth 0 (strides M) 0)
  /\ sizes (subscript N M res idx) = tl (sizes M)
  /\ strides (subscript N M res idx) = tl (strides M)
  /\ length (sizes (subscript N M res idx)) = (N - 1)%nat
  /\ length (strides (subscript N M res idx)) = (N - 1)%nat.
Proof.
  intros HN H1 H2 H3 H4.
  rewrite (subscript_tl M res idx H1 H2 H3 H4); simpl.
  repeat split; destruct (sizes M), (strides M); simpl in *; lia.
Qed.







End CRunnerUtilsMemRefs.

(** *** On concrete vectors and memrefs *)

Module CRunnerUtilsSamples.
Import CRunnerUtils CRunnerUtilsFacts CRunnerUtilsPowers CRunnerUtilsVectors
       CRunnerUtilsMemRefs CRunnerSample.
Local Open Scope Z_scope.

Lemma dropFront_writes_the_tail_witness :
  dropFront 3 [4; 5; 6] [9; 9] = [5; 6]
  /\ nth 2 (dropFront 3 [4; 5; 6] [7; 8; 9]) 0 = 9.
Proof.
  destruct (dropFront_writes_the_tail 3 [4; 5; 6] [9; 9])
    as (_ & _ & _ & Htl).
  destruct (dropFront_writes_the_tail 3 [4; 5; 6] [7; 8; 9])
    as (_ & _ & Hkeep & _).
  split; [apply Htl; reflexivity|apply Hkeep; simpl; lia].
Defined.

Lemma isPowerOf2_iff_witness : isPowerOf2 64 = true /\ isPowerOf2 0 = true.
Proof.
  split.
  - apply (@isPowerOf2_iff 64); [unfold isUnsigned; lia|].
    right. exists 6. split; [lia|reflexivity].
  - apply (@isPowerOf2_iff 0); [unfold isUnsigned; lia|]. now left.
Defined.

Lemma nextPowerOf2_equations_witness :
  nextPowerOf2 12 = wrap32 (2 * nextPowerOf2 (wrap32 (12 + 1) / 2)).
Proof.
  exact (@nextPowerOf2_equations 12 ltac:(unfold isUnsigned; lia)).
Defined.

Lemma Vector1D_static_asserts_witness :
  12 + Vector1D_padding 12 = nextPowerOf2 12
  /\ nextPowerOf2 12 > 12 /\ nextPowerOf2 12 < 2 * 12.
Proof.
  destruct (@Vector1D_static_asserts 12 ltac:(lia)) as (_ & Hnp & Hpad & _).
  split; [exact Hpad|]. apply Hnp. reflexivity.
Defined.

Lemma nextPowerOf2_least_witness :
  powerOfTwo (nextPowerOf2 12) /\ 12 <= nextPowerOf2 12
  /\ nextPowerOf2 12 <= 2 ^ 10.
Proof.
  apply (@nextPowerOf2_least 12 (2 ^ 10)); [lia| |lia].
  exists 10. split; [lia|reflexivity].
Defined.

Lemma nextPowerOf2_wraps_witness :
  isPowerOf2 (2 ^ 31 + 1) = false /\ nextPowerOf2 (2 ^ 31 + 1) = 0.
Proof.
  destruct (@nextPowerOf2_wraps (2 ^ 31 + 1) ltac:(lia)) as (Hp & H0 & _).
  split; [exact Hp|]. apply H0. lia.
Defined.

Lemma nextPowerOf2_monotone_idempotent_witness :
  nextPowerOf2 5 <= nextPowerOf2 12
  /\ nextPowerOf2 (nextPowerOf2 5) = nextPowerOf2 5.
Proof.
  apply (@nextPowerOf2_monotone_idempotent 5 12); lia.
Defined.


Lemma subscript_drops_first_dimension_witness :
  offset (subscript 3 cube (fresh 2) 1) = wrap64 (5 + 1 * 12)
  /\ sizes (subscript 3 cube (fresh 2) 1) = [3; 4]
  /\ strides (subscript 3 cube (fresh 2) 1) = [4; 1].
Proof.
  destruct (@subscript_drops_first_dimension 3 cube (fresh 2) 1)
    as (_ & _ & Hoff & Hsz & Hst & _); try reflexivity; [lia|].
  auto.
Defined.



End CRunnerUtilsSamples.

(** ** More on the consumer, the adjuster and the replay *)

Section MoreConsumerFacts.
Context `{Collaborators}.

Import DeclTrackingASTConsumer.

Lemma keeps_iff (D : Decl) : keeps D = true <-> mainFileTopLevel D.
Proof.
  split; [apply keeps_true|].
  unfold keeps, mainFileTopLevel. intros (Hin & Hinst & Hobjc).
  rewrite Hin, Hobjc; simpl.
  destruct (isa_NamedDecl D); simpl; [|reflexivity].
  now rewrite Hinst.
Qed.

(** [HandleTopLevelDecl] answers [true], leaves what the vector already
    held in place, and appends, in the order of the group, exactly the
    declarations of the group that are in the main file and neither an
    implicit template instantiation nor an Objective-C method; a
    declaration that occurs twice is appended twice. *)
Theorem HandleTopLevelDecl_appends_exactly
  (TopLevelDecls : list Decl) (DG : DeclGroupRef) :
  HandleTopLevelDecl TopLevelDecls DG
  = (TopLevelDecls ++ filter keeps DG, true)
  /\ (forall D, In D (filter keeps DG) <-> In D DG /\ mainFileTopLevel D)
  /\ (Forall mainFileTopLevel DG ->
      fst (HandleTopLevelDecl TopLevelDecls DG) = TopLevelDecls ++ DG).
Proof.
  split; [apply HandleTopLevelDecl_filter|]. split.
  - intros D. rewrite filter_In, keeps_iff. tauto.
  - intros Hall. rewrite HandleTopLevelDecl_filter; simpl. f_equal.
    induction Hall as [|D DG' HD _ IH]; simpl; [reflexivity|].
    apply keeps_iff in HD. now rewrite HD, IH.
Qed.

End MoreConsumerFacts.

Section MoreAdjusterFacts.
Context `{Collaborators}.

(** The adjuster changes a level in two ways only.  It answers Ignored for
    a level that was not Ignored only when the diagnostic is owned by a
    check, is not escalated, lies in the main file and is suppressed; it
    answers Error for a level that was not Error only for an escalated
    Warning of a check; in every other case the level is returned as it
    came. *)
Theorem levelAdjuster_changes_only_by_rule
  (Ctx : ClangTidyContext) (DiagLevel : Level) (Info : Diagnostic) :
  (levelAdjuster (Some Ctx) DiagLevel Info = DiagLevel
   \/ levelAdjuster (Some Ctx) DiagLevel Info = Error
   \/ levelAdjuster (Some Ctx) DiagLevel Info = Ignored)
  /\ (levelAdjuster (Some Ctx) DiagLevel Info = Ignored ->
      DiagLevel <> Ignored ->
      getCheckName Ctx (Info_getID Info) <> EmptyString
      /\ ~ escalated Ctx DiagLevel Info
      /\ locatedInMainFile Info
      /\ shouldSuppressDiagnostic DiagLevel Info Ctx false = true)
  /\ (levelAdjuster (Some Ctx) DiagLevel Info = Error ->
      DiagLevel <> Error ->
      getCheckName Ctx (Info_getID Info) <> EmptyString
      /\ escalated Ctx DiagLevel Info).
Proof.
  unfold levelAdjuster, escalated, locatedInMainFile.
  destruct (StringRef.empty (getCheckName Ctx (Info_getID Info))) eqn:Ename;
    simpl.
  { split; [now left|]. split; intros E Hne; congruence. }
  apply empty_false_iff in Ename.
  destruct (Level_eqb DiagLevel Warning) eqn:El; simpl.
  - assert (DiagLevel = Warning) as ->
      by (destruct DiagLevel; simpl in El; congruence).
    destruct (treatAsError Ctx _) eqn:Et.
    + split; [auto|]. split; [discriminate|]. intros _ _. auto.
    + destruct (Info_SourceManager Info) as [InfoSM|] eqn:HSM; simpl.
      * destruct (isInsideMainFile _ InfoSM) eqn:Hin; simpl.
        -- destruct (shouldSuppressDiagnostic _ _ _ _) eqn:Hsup.
           ++ split; [auto|]. split; [|discriminate].
              intros _ _. repeat split; auto.
              ** intros [_ Hc]; congruence.
              ** exists InfoSM; auto.
           ++ split; [auto|]. split; discriminate.
        -- split; [auto|]. split; discriminate.
      * split; [auto|]. split; discriminate.
  - destruct (Info_SourceManager Info) as [InfoSM|] eqn:HSM; simpl.
    + destruct (isInsideMainFile _ InfoSM) eqn:Hin; simpl.
      * destruct (shouldSuppressDiagnostic _ _ _ _) eqn:Hsup.
        -- split; [auto|]. split; [|discriminate].
           intros _ _. repeat split; auto.
           ++ intros [-> _]. discriminate El.
           ++ exists InfoSM; auto.
        -- split; [auto|]. split; intros E Hne; congruence.
      * split; [auto|]. split; intros E Hne; congruence.
    + split; [auto|]. split; intros E Hne; congruence.
Qed.

End MoreAdjusterFacts.

Section MoreReplayFacts.
Context `{Collaborators}.

Import ReplayPreamble.

Lemma replayInclusion_None (R : t) (Inc : Inclusion) :
  replayInclusion R Inc = None <-> ~ lexesHash R Inc.
Proof.
  split.
  - intros E Hh. destruct (replayInclusion_lexesHash Hh) as [calls Ec].
    congruence.
  - intros Hn. destruct (replayInclusion R Inc) as [calls|] eqn:E;
      [|reflexivity].
    apply replayInclusion_Some in E. tauto.
Qed.





Lemma resolve_Some (R : t) (Inc : Inclusion) (F : FileEntry) :
  resolve R Inc = Some F ->
  Inc_Resolved Inc <> EmptyString
  /\ FileManager_getFile (SM R) (Inc_Resolved Inc) = Some F.
Proof.
  unfold resolve.
  destruct (String.eqb (Inc_Resolved Inc) EmptyString) eqn:E; simpl;
    [discriminate|].
  apply String.eqb_neq in E. auto.
Qed.

Lemma resolve_None (R : t) (Inc : Inclusion) :
  resolve R Inc = None ->
  Inc_Resolved Inc = EmptyString
  \/ FileManager_getFile (SM R) (Inc_Resolved Inc) = None.
Proof.
  unfold resolve.
  destruct (String.eqb (Inc_Resolved Inc) EmptyString) eqn:E; simpl.
  - apply String.eqb_eq in E. auto.
  - auto.
Qed.

Lemma replayAll_outcomes (R : t) (Incs : list Inclusion) :
  forall calls, replayAll R Incs = Some calls ->
  forall c, In c calls ->
  match c with
  | InclusionDirective _ _ _ _ _ _ _ _ _ _ => True
  | FileSkipped Ref _ Kind =>
      exists Inc,
        In Inc Incs
        /\ Inc_Resolved Inc <> EmptyString
        /\ FileManager_getFile (SM R) (Inc_Resolved Inc)
           = Some (FileEntryRef_Entry Ref)
        /\ FileEntryRef_Name Ref = FileEntry_getName (FileEntryRef_Entry Ref)
        /\ Kind = Inc_FileKind Inc
  | FileNotFound Name =>
      exists Inc,
        In Inc Incs
        /\ Name = bareName Inc
        /\ (Inc_Resolved Inc = EmptyString
            \/ FileManager_getFile (SM R) (Inc_Resolved Inc) = None)
  end.
Proof.
  induction Incs as [|Inc Incs IH]; simpl; intros calls E c Hin.
  - injection E as <-; contradiction.
  - destruct (replayInclusion R Inc) as [first|] eqn:Ef; [|discriminate].
    destruct (replayAll R Incs) as [more|] eqn:Em; [|discriminate].
    injection E as <-.
    apply in_app_or in Hin; destruct Hin as [Hin|Hin].
    + apply replayInclusion_Some in Ef.
      destruct Ef as (_ & HashLoc & IncludeTok & Range & FilenameTok & ->).
      destruct Hin as [<-|[<-|[]]]; [exact I|].
      destruct (resolve R Inc) as [F|] eqn:Er.
      * apply resolve_Some in Er. destruct Er as [Hne Hget].
        exists Inc; simpl; auto.
      * apply resolve_None in Er. exists Inc; auto.
    + specialize (IH more eq_refl c Hin).
      destruct c; auto; destruct IH as (I0 & HI & Hrest);
        exists I0; auto.
Qed.

(** What a completed [replay] reports as skipped is a file the file
    manager found under the resolved path of one of the records, named by
    the file entry's own name; and it reports "file not found", under the
    bare written name, only for a record whose resolved path is empty or
    no longer leads to a file. *)
Theorem replay_outcomes_follow_the_file_manager
  (R : t) (calls : list PPCall) :
  replay R = Some calls ->
  (forall Ref Tok Kind, In (FileSkipped Ref Tok Kind) calls ->
     exists Inc,
       In Inc (MainFileIncludes (Includes R))
       /\ Inc_Resolved Inc <> EmptyString
       /\ FileManager_getFile (SM R) (Inc_Resolved Inc)
          = Some (FileEntryRef_Entry Ref)
       /\ FileEntryRef_Name Ref = FileEntry_getName (FileEntryRef_Entry Ref)
       /\ Kind = Inc_FileKind Inc)
  /\ (forall Name, In (FileNotFound Name) calls ->
        exists Inc,
          In Inc (MainFileIncludes (Includes R))
          /\ Name = bareName Inc
          /\ (Inc_Resolved Inc = EmptyString
              \/ FileManager_getFile (SM R) (Inc_Resolved Inc) = None)).
Proof.
  intros E. split.
  - intros Ref Tok Kind Hin.
    eapply replayAll_outcomes in Hin; [exact Hin|exact E].
  - intros Name Hin.
    eapply replayAll_outcomes in Hin; [exact Hin|exact E].
Qed.

(** [attach] adds nothing when no listener is registered, so nothing will
    be replayed; otherwise it adds one listener, after all the others,
    whose delegate is the chain that was registered until then, and the
    preprocessor's chain is no longer that one, as the code asserts. *)
Theorem attach_chains_onto_existing_listeners
  (Incs : IncludeStructure) (PP : list PPListener)
  (SrcMgr : SourceManager) (LO : LangOptions) :
  (PP = [] -> attach Incs PP SrcMgr LO = [])
  /\ (PP <> [] ->
      attach Incs PP SrcMgr LO
      = PP ++ [ReplayPreambleCallbacks Incs PP SrcMgr LO]
      /\ attach Incs PP SrcMgr LO <> PP).
Proof.
  split; [now intros ->|].
  intros Hne. rewrite (attach_listening Incs SrcMgr LO Hne).
  split; [reflexivity|].
  intros E. apply (f_equal (@length _)) in E.
  rewrite length_app in E. simpl in E. lia.
Qed.


End MoreReplayFacts.

(** ** More on ParsedAST::build and buildAST *)

Section MoreStoreFacts.
Context `{Collaborators}.

Variable LevelAdjuster : Level -> Diagnostic -> Level.



End MoreStoreFacts.

Section MoreBuildFacts.
Context `{Collaborators}.

Variables (CI : CompilerInvocation) (CompilerInvocationDiags : list Diag)
          (Preamble : option PreambleData) (Buffer : MemoryBuffer)
          (VFS : FileSystem) (Index : option SymbolIndex)
          (Opts : ParseOptions).

(** Everything [build] puts into the unit once the session has started. *)
Lemma build_started_unit (w : World) (Clang : CompilerInstance) :
  prepareCompilerInstance (freeing CI) (option_map Preamble_Preamble Preamble)
                          Buffer VFS = Some Clang ->
  BeginSourceFile (Clang_Session Clang) = true ->
  exists AST st1 w1 st2 w2,
    build CI CompilerInvocationDiags Preamble Buffer VFS Index Opts w
    = (Some AST, w2)
    /\ StoreDiags.HandleDiagnostics
         (levelAdjuster
            (Some (makeCTContext
                     Opts (MemoryBuffer_getBufferIdentifier Buffer) Clang)))
         ([], makeFixIncludes (MemoryBuffer_getBufferIdentifier Buffer)
                (getBuffer Buffer) Preamble VFS Index Opts)
         (Execute_Diagnostics (Clang_Session Clang)) w
       = (st1, w1)
    /\ StoreDiags.HandleDiagnostics
         (levelAdjuster
            (Some (makeCTContext
                     Opts (MemoryBuffer_getBufferIdentifier Buffer) Clang)))
         st1 (matchAST_Diagnostics (Clang_Session Clang))
         (afterExecute Clang w1)
       = (st2, w2)
    /\ AST_Diags AST
       = CompilerInvocationDiags
         ++ match Preamble with
            | Some P => Preamble_Diags P
            | None => []
            end
         ++ StoreDiags.take
              (Some (makeCTContext
                       Opts (MemoryBuffer_getBufferIdentifier Buffer) Clang))
              (fst st2)
    /\ AST_Preamble AST = Preamble
    /\ AST_Action AST = mkAction []
    /\ AST_LocalTopLevelDecls AST
       = DeclTrackingASTConsumer.consume
           [] (Execute_DeclGroups (Clang_Session Clang))
    /\ MainFileIncludes (AST_Includes AST)
       = match Preamble with
         | Some P => MainFileIncludes (Preamble_Includes P)
         | None => []
         end
         ++ Execute_Includes (Clang_Session Clang)
    /\ MacroNames (AST_Macros AST)
       = match Preamble with
         | Some P => MacroNames (Preamble_Macros P)
         | None => []
         end
         ++ Execute_Macros (Clang_Session Clang)
    /\ Clang_PPCallbacks (AST_Clang AST)
       = match Preamble with
         | Some P =>
             ReplayPreamble.attach
               (Preamble_Includes P) (checkListeners Opts Buffer Clang)
               (Clang_SourceManager Clang) (Clang_LangOpts Clang)
         | None => checkListeners Opts Buffer Clang
         end
         ++ [IncludeStructureCallback; CollectMainFileMacros]
    /\ Clang_TraversalScope (AST_Clang AST)
       = Some (AST_LocalTopLevelDecls AST)
    /\ Clang_DiagnosticClient (AST_Clang AST) = IgnoreDiagnostics
    /\ Clang_ExternalSemaSource (AST_Clang AST)
       = match makeFixIncludes (MemoryBuffer_getBufferIdentifier Buffer)
                 (getBuffer Buffer) Preamble VFS Index Opts with
         | Some _ => true
         | None => Clang_ExternalSemaSource Clang
         end
    /\ Clang_Session (AST_Clang AST) = Clang_Session Clang.
Proof.
  intros E Hb. unfold build, freeing in *. rewrite E, Hb.
  unfold checkListeners, afterExecute.
  set (Ctx := makeCTContext Opts (MemoryBuffer_getBufferIdentifier Buffer) Clang).
  set (LA := levelAdjuster (Some Ctx)).
  set (Fixer := makeFixIncludes _ _ Preamble VFS Index Opts).
  clearbody Fixer.
  destruct Preamble as [P|], Fixer as [F|];
    cbn [Clang_Session Clang_setPPCallbacks setExternalSemaSource
         setTraversalScope setClient Clang_MainInputFile Clang_LangOpts
         Clang_SourceManager Clang_PPCallbacks negb
         takeTopLevelDecls Action_TopLevelDecls];
    unfold bind;
    destruct (StoreDiags.HandleDiagnostics LA _ (Execute_Diagnostics _) w)
      as [st1 w1] eqn:E1;
    destruct (Execute_Error (Clang_Session Clang)) as [Err|];
    cbn [log ret];
    destruct (StoreDiags.HandleDiagnostics LA st1 (matchAST_Diagnostics _) _)
      as [st2 w2] eqn:E2;
    eexists; exists st1, w1, st2, w2;
    (split; [reflexivity|]); (split; [reflexivity|]);
    (split; [exact E2|]);
    cbn [AST_Diags AST_Preamble AST_Action AST_LocalTopLevelDecls
         AST_Includes AST_Macros AST_Clang MainFileIncludes MacroNames
         Clang_PPCallbacks Clang_TraversalScope Clang_DiagnosticClient
         Clang_ExternalSemaSource Clang_Session setClient setTraversalScope
         Clang_setPPCallbacks setExternalSemaSource fst];
    unfold addPPCallbacks; rewrite <- ?app_assoc;
    repeat split; reflexivity.
Qed.

Lemma build_None_iff (w : World) :
  fst (build CI CompilerInvocationDiags Preamble Buffer VFS Index Opts w)
  = None
  <-> prepareCompilerInstance (freeing CI)
        (option_map Preamble_Preamble Preamble) Buffer VFS = None
      \/ exists Clang,
           prepareCompilerInstance (freeing CI)
             (option_map Preamble_Preamble Preamble) Buffer VFS = Some Clang
           /\ BeginSourceFile (Clang_Session Clang) = false.
Proof.
  destruct (prepareCompilerInstance (freeing CI)
              (option_map Preamble_Preamble Preamble) Buffer VFS)
    as [Clang|] eqn:E.
  - destruct (BeginSourceFile (Clang_Session Clang)) eqn:Hb.
    + destruct (@build_started _ CI CompilerInvocationDiags Preamble Buffer
          VFS Index Opts w Clang E Hb)
        as (AST & w' & _ & Ebuild & _).
      rewrite Ebuild; simpl. split; [discriminate|].
      intros [?|(C & EC & HC)]; [discriminate|].
      injection EC as <-. congruence.
    + rewrite (@build_begin_fails _ CI CompilerInvocationDiags Preamble Buffer
          VFS Index Opts w Clang E Hb).
      simpl. split; auto. intros _. right. now exists Clang.
  - rewrite (@build_prepare_fails _ CI CompilerInvocationDiags Preamble Buffer
          VFS Index Opts w E).
    simpl. split; auto.
Qed.

Lemma build_None_world (w : World) :
  fst (build CI CompilerInvocationDiags Preamble Buffer VFS Index Opts w)
  = None ->
  IndexRequests
    (snd (build CI CompilerInvocationDiags Preamble Buffer VFS Index Opts w))
  = IndexRequests w.
Proof.
  destruct (prepareCompilerInstance (freeing CI)
              (option_map Preamble_Preamble Preamble) Buffer VFS)
    as [Clang|] eqn:E.
  - destruct (BeginSourceFile (Clang_Session Clang)) eqn:Hb.
    + destruct (@build_started _ CI CompilerInvocationDiags Preamble Buffer
          VFS Index Opts w Clang E Hb)
        as (AST & w' & _ & Ebuild & _).
      rewrite Ebuild; simpl. discriminate.
    + now rewrite (@build_begin_fails _ CI CompilerInvocationDiags Preamble Buffer
          VFS Index Opts w Clang E Hb).
  - now rewrite (@build_prepare_fails _ CI CompilerInvocationDiags Preamble Buffer
          VFS Index Opts w E).
Qed.

(** [build] returns no unit exactly when the session cannot start:
    [prepareCompilerInstance] gives no instance or [BeginSourceFile]
    fails.  Then no query was sent to the index; and when it is
    [BeginSourceFile] that fails, exactly one line is logged, which names
    the main input file. *)
Theorem build_fails_only_at_session_start (w : World) :
  (fst (build CI CompilerInvocationDiags Preamble Buffer VFS Index Opts w)
   = None
   <-> prepareCompilerInstance (freeing CI)
         (option_map Preamble_Preamble Preamble) Buffer VFS = None
       \/ exists Clang,
            prepareCompilerInstance (freeing CI)
              (option_map Preamble_Preamble Preamble) Buffer VFS = Some Clang
            /\ BeginSourceFile (Clang_Session Clang) = false)
  /\ (fst (build CI CompilerInvocationDiags Preamble Buffer VFS Index Opts w)
      = None ->
      IndexRequests
        (snd (build CI CompilerInvocationDiags Preamble Buffer VFS Index
                    Opts w))
      = IndexRequests w)
  /\ (forall Clang,
        prepareCompilerInstance (freeing CI)
          (option_map Preamble_Preamble Preamble) Buffer VFS = Some Clang ->
        BeginSourceFile (Clang_Session Clang) = false ->
        Log (snd (build CI CompilerInvocationDiags Preamble Buffer VFS Index
                        Opts w))
        = Log w ++ [("BeginSourceFile() failed when building AST for "
                     ++ Clang_MainInputFile Clang)%string]).
Proof.
  split; [apply build_None_iff|]. split; [apply build_None_world|].
  intros Clang E Hb.
  now rewrite (@build_begin_fails _ CI CompilerInvocationDiags Preamble Buffer
          VFS Index Opts w Clang E Hb).
Qed.


Lemma build_Some_unit (w : World) (AST : ParsedAST) (Clang : CompilerInstance) :
  prepareCompilerInstance (freeing CI) (option_map Preamble_Preamble Preamble)
                          Buffer VFS = Some Clang ->
  fst (build CI CompilerInvocationDiags Preamble Buffer VFS Index Opts w)
  = Some AST ->
  BeginSourceFile (Clang_Session Clang) = true.
Proof.
  intros E HAST.
  destruct (build_Some_inv _ _ _ _ _ _ _ _ HAST) as (C & EC & Hb).
  rewrite E in EC. injection EC as <-. exact Hb.
Qed.

(** The local top-level declarations of the unit are all the declarations
    the parser handed to the consumer that are in the main file and
    neither an implicit template instantiation nor an Objective-C method:
    none of them is lost, and they keep the order in which they were
    handed over. *)
Theorem unit_keeps_every_main_file_declaration
  (w : World) (AST : ParsedAST) (Clang : CompilerInstance) :
  prepareCompilerInstance (freeing CI) (option_map Preamble_Preamble Preamble)
                          Buffer VFS = Some Clang ->
  fst (build CI CompilerInvocationDiags Preamble Buffer VFS Index Opts w)
  = Some AST ->
  AST_LocalTopLevelDecls AST
  = filter DeclTrackingASTConsumer.keeps
           (concat (Execute_DeclGroups (Clang_Session Clang)))
  /\ forall D,
       In D (AST_LocalTopLevelDecls AST)
       <-> In D (concat (Execute_DeclGroups (Clang_Session Clang)))
           /\ mainFileTopLevel D.
Proof.
  intros E HAST.
  pose proof (build_Some_unit w E HAST) as Hb.
  destruct (build_started_unit w E Hb)
    as (AST' & st1 & w1 & st2 & w2 & Ebuild & _ & _ & _ & _ & _ & HDecls & _).
  rewrite Ebuild in HAST; injection HAST as <-.
  rewrite HDecls, consume_filter; simpl.
  split; [reflexivity|].
  intros D. rewrite filter_In, keeps_iff. tauto.
Qed.

(** In the unit [build] returns, the traversal scope of the AST is exactly
    the unit's local top-level declarations, the diagnostics client is
    [IgnoreDiagnostics], the preamble is the one passed in, and the
    action's own vector of declarations has been emptied by the move. *)
Theorem built_unit_is_scoped_to_its_declarations
  (w : World) (AST : ParsedAST) :
  fst (build CI CompilerInvocationDiags Preamble Buffer VFS Index Opts w)
  = Some AST ->
  Clang_TraversalScope (AST_Clang AST) = Some (AST_LocalTopLevelDecls AST)
  /\ Clang_DiagnosticClient (AST_Clang AST) = IgnoreDiagnostics
  /\ AST_Preamble AST = Preamble
  /\ fst (takeTopLevelDecls (AST_Action AST)) = [].
Proof.
  intros HAST.
  destruct (build_Some_inv _ _ _ _ _ _ _ _ HAST) as (Clang & E & Hb).
  destruct (build_started_unit w E Hb)
    as (AST' & st1 & w1 & st2 & w2 & Ebuild & _ & _ & _ & HP & HA & _ & _ & _
        & _ & HT & HC & _).
  rewrite Ebuild in HAST; injection HAST as <-.
  rewrite HA. auto.
Qed.


(** The listeners on the preprocessor of the unit are, in this order: the
    session's own and the checks', then the replay listener (only with a
    preamble, and only if somebody was listening), whose delegate is
    exactly those earlier listeners, then the include collector and the
    macro collector. *)
Theorem replay_is_registered_before_the_collectors
  (w : World) (AST : ParsedAST) (Clang : CompilerInstance) :
  prepareCompilerInstance (freeing CI) (option_map Preamble_Preamble Preamble)
                          Buffer VFS = Some Clang ->
  fst (build CI CompilerInvocationDiags Preamble Buffer VFS Index Opts w)
  = Some AST ->
  Clang_PPCallbacks (AST_Clang AST)
  = checkListeners Opts Buffer Clang
    ++ match Preamble, checkListeners Opts Buffer Clang with
       | Some P, _ :: _ =>
           [ReplayPreambleCallbacks
              (Preamble_Includes P) (checkListeners Opts Buffer Clang)
              (Clang_SourceManager Clang) (Clang_LangOpts Clang)]
       | _, _ => []
       end
    ++ [IncludeStructureCallback; CollectMainFileMacros].
Proof.
  intros E HAST.
  pose proof (build_Some_unit w E HAST) as Hb.
  destruct (build_started_unit w E Hb)
    as (AST' & st1 & w1 & st2 & w2 & Ebuild & _ & _ & _ & _ & _ & _ & _ & _
        & HPP & _).
  rewrite Ebuild in HAST; injection HAST as <-.
  rewrite HPP.
  destruct Preamble as [P|]; [|reflexivity].
  destruct (checkListeners Opts Buffer Clang) as [|l L] eqn:EL;
    [reflexivity|].
  unfold ReplayPreamble.attach, addPPCallbacks.
  now rewrite <- app_assoc.
Qed.


End MoreBuildFacts.

Section MoreSetupFacts.
Context `{Collaborators}.

Lemma registerChecks_app (CTChecks : list ClangTidyCheck) (LO : LangOptions) :
  forall PP,
    registerChecks CTChecks LO PP
    = PP ++ map (fun Check => TidyCheckCallbacks (Check_Name Check))
                (filter (fun Check =>
                           isLanguageVersionSupported Check LO
                           && Check_HasPPCallbacks Check)
                        CTChecks).
Proof.
  unfold registerChecks.
  induction CTChecks as [|Check rest IH]; intros PP; simpl.
  - now rewrite app_nil_r.
  - rewrite IH.
    destruct (isLanguageVersionSupported Check LO); simpl; [|reflexivity].
    destruct (Check_HasPPCallbacks Check); simpl; [|reflexivity].
    unfold addPPCallbacks. now rewrite <- app_assoc.
Qed.

(** Registering the checks keeps the listeners that were there, in front,
    and adds one listener for each check that supports the language
    version and has preprocessor callbacks, in the order of the checks; a
    check that does not support the language version, or has no
    preprocessor callbacks, adds none. *)
Theorem registerChecks_adds_supported_checks_in_order
  (CTChecks : list ClangTidyCheck) (LO : LangOptions) (PP : list PPListener) :
  registerChecks CTChecks LO PP
  = PP ++ map (fun Check => TidyCheckCallbacks (Check_Name Check))
              (filter (fun Check =>
                         isLanguageVersionSupported Check LO
                         && Check_HasPPCallbacks Check)
                      CTChecks).
Proof.
  apply registerChecks_app.
Qed.

Lemma addExisting_all (Incs : list Inclusion) :
  forall I,
    IncludeFixer.Inserter_Existing (fold_left IncludeFixer.addExisting Incs I)
    = IncludeFixer.Inserter_Existing I ++ Incs
    /\ IncludeFixer.Inserter_BuildDir
         (fold_left IncludeFixer.addExisting Incs I)
       = IncludeFixer.Inserter_BuildDir I.
Proof.
  induction Incs as [|Inc Incs IH]; intros I; simpl.
  - now rewrite app_nil_r.
  - destruct (IH (IncludeFixer.addExisting I Inc)) as [-> ->]; simpl.
    now rewrite <- app_assoc.
Qed.

(** The include fixer is set up exactly when missing-include suggestions
    are enabled, an index is given and the working directory can be read.
    It then queries that index, starts with no request made and a limit of
    5, and its inserter works in that directory and knows every main-file
    include of the preamble, in order (none without a preamble). *)
Theorem include_fixer_is_set_up_iff
  (Filename Content : string) (Preamble : option PreambleData)
  (VFS : FileSystem) (Index : option SymbolIndex) (Opts : ParseOptions) :
  (makeFixIncludes Filename Content Preamble VFS Index Opts <> None
   <-> SuggestMissingIncludes Opts = true /\ Index <> None
       /\ getCurrentWorkingDirectory VFS <> None)
  /\ forall F,
       makeFixIncludes Filename Content Preamble VFS Index Opts = Some F ->
       Index = Some (IncludeFixer.Index F)
       /\ IncludeFixer.IndexRequestLimit F = 5
       /\ IncludeFixer.IndexRequestCount F = 0
       /\ IncludeFixer.File F = Filename
       /\ getCurrentWorkingDirectory VFS
          = Some (IncludeFixer.Inserter_BuildDir (IncludeFixer.Inserter F))
       /\ IncludeFixer.Inserter_Existing (IncludeFixer.Inserter F)
          = match Preamble with
            | Some P => MainFileIncludes (Preamble_Includes P)
            | None => []
            end.
Proof.
  unfold makeFixIncludes.
  destruct (SuggestMissingIncludes Opts), Index as [Idx|],
    (getCurrentWorkingDirectory VFS) as [Dir|];
    (split;
     [split;
      [intros Hne; try (now elim Hne); repeat split; discriminate
      |intros (H1 & H2 & H3); try discriminate; try congruence]
     |intros F HF; try discriminate]).
  injection HF as <-. cbn [IncludeFixer.Index IncludeFixer.IndexRequestLimit
                           IncludeFixer.IndexRequestCount IncludeFixer.File
                           IncludeFixer.Inserter].
  repeat split.
  - destruct Preamble as [P|]; [|reflexivity].
    now destruct (addExisting_all (MainFileIncludes (Preamble_Includes P))
                    (IncludeFixer.mkInserter Filename Content Dir []))
      as [_ ->].
  - destruct Preamble as [P|]; [|reflexivity].
    now destruct (addExisting_all (MainFileIncludes (Preamble_Includes P))
                    (IncludeFixer.mkInserter Filename Content Dir []))
      as [-> _].
Qed.

(** Whether or not the working directory could be set, [buildAST] is
    [build] on the file system that [setCurrentWorkingDirectory] left,
    the inputs' one under the preamble's stat cache if there is one; it
    logs its own line only when setting the directory failed, returns no
    unit exactly when the session cannot start on that file system, and
    sends at most 5 index queries. *)
Theorem buildAST_is_build_after_chdir
  (FileName : string) (Invocation : CompilerInvocation)
  (CompilerInvocationDiags : list Diag) (Inputs : ParseInputs)
  (Preamble : option PreambleData) (w : World) (VFS' : FileSystem)
  (Failed : bool) :
  setCurrentWorkingDirectory (consumingFS Inputs Preamble)
    (Directory (Inputs_CompileCommand Inputs)) = (VFS', Failed) ->
  buildAST FileName Invocation CompilerInvocationDiags Inputs Preamble w
  = build Invocation CompilerInvocationDiags Preamble
      (getMemBufferCopy (Inputs_Contents Inputs) FileName) VFS'
      (Inputs_Index Inputs) (Inputs_Opts Inputs)
      (if Failed
       then mkWorld
              (Log w
               ++ ["Couldn't set working directory when building the preamble."])
              (IndexRequests w)
       else w)
  /\ (fst (buildAST FileName Invocation CompilerInvocationDiags Inputs
                    Preamble w) = None
      <-> prepareCompilerInstance (freeing Invocation)
            (option_map Preamble_Preamble Preamble)
            (getMemBufferCopy (Inputs_Contents Inputs) FileName) VFS' = None
          \/ exists Clang,
               prepareCompilerInstance (freeing Invocation)
                 (option_map Preamble_Preamble Preamble)
                 (getMemBufferCopy (Inputs_Contents Inputs) FileName) VFS'
               = Some Clang
               /\ BeginSourceFile (Clang_Session Clang) = false)
  /\ length (IndexRequests
               (snd (buildAST FileName Invocation CompilerInvocationDiags
                              Inputs Preamble w)))
     <= length (IndexRequests w) + 5.
Proof.
  intros Hcwd.
  assert (Hrun :
    buildAST FileName Invocation CompilerInvocationDiags Inputs Preamble w
    = build Invocation CompilerInvocationDiags Preamble
        (getMemBufferCopy (Inputs_Contents Inputs) FileName) VFS'
        (Inputs_Index Inputs) (Inputs_Opts Inputs)
        (if Failed
         then mkWorld
                (Log w
                 ++ ["Couldn't set working directory when building the preamble."])
                (IndexRequests w)
         else w)).
  { unfold buildAST. fold (consumingFS Inputs Preamble). rewrite Hcwd.
    destruct Failed; reflexivity. }
  split; [exact Hrun|]. rewrite Hrun.
  split; [apply build_None_iff|].
  set (w0 := if Failed then _ else w).
  assert (Hw0 : IndexRequests w0 = IndexRequests w)
    by (unfold w0; destruct Failed; reflexivity).
  rewrite <- Hw0.
  destruct (prepareCompilerInstance (freeing Invocation)
              (option_map Preamble_Preamble Preamble)
              (getMemBufferCopy (Inputs_Contents Inputs) FileName) VFS')
    as [Clang|] eqn:E.
  - destruct (BeginSourceFile (Clang_Session Clang)) eqn:Hb.
    + destruct (@build_started _ Invocation CompilerInvocationDiags Preamble
                  _ VFS' (Inputs_Index Inputs) (Inputs_Opts Inputs) w0 Clang
                  E Hb)
        as (AST & w' & U & Ebuild & _ & _ & _ & _ & _ & HReq).
      now rewrite Ebuild.
    + rewrite (@build_begin_fails _ Invocation CompilerInvocationDiags
                 Preamble _ VFS' (Inputs_Index Inputs) (Inputs_Opts Inputs)
                 w0 Clang E Hb).
      simpl; lia.
  - rewrite (@build_prepare_fails _ Invocation CompilerInvocationDiags
               Preamble _ VFS' (Inputs_Index Inputs) (Inputs_Opts Inputs)
               w0 E).
    simpl; lia.
Qed.

End MoreSetupFacts.

(** ** The further properties on the sample session *)

Section MoreOnTheSample.

#[local] Existing Instance Sample.collaborators.

Lemma HandleTopLevelDecl_appends_exactly_witness :
  fst (DeclTrackingASTConsumer.HandleTopLevelDecl
         [Sample.x_decl] [Sample.assert_decl; Sample.x_decl])
  = [Sample.x_decl] ++ [Sample.assert_decl; Sample.x_decl].
Proof.
  apply (@HandleTopLevelDecl_appends_exactly Sample.collaborators).
  repeat constructor; try reflexivity; discriminate.
Defined.

Lemma levelAdjuster_changes_only_by_rule_witness :
  getCheckName Sample.TidyCtx (Info_getID Sample.S_warning) <> EmptyString
  /\ ~ escalated Sample.TidyCtx Warning Sample.S_warning
  /\ locatedInMainFile Sample.S_warning
  /\ shouldSuppressDiagnostic Warning Sample.S_warning Sample.TidyCtx false
     = true.
Proof.
  apply (@levelAdjuster_changes_only_by_rule
           Sample.collaborators Sample.TidyCtx Warning Sample.S_warning);
    [reflexivity|discriminate].
Defined.



Lemma replay_outcomes_follow_the_file_manager_witness :
  exists Inc,
    In Inc (MainFileIncludes Sample.Includes)
    /\ "gone.h" = bareName Inc
    /\ (Inc_Resolved Inc = EmptyString
        \/ FileManager_getFile Sample.SrcMgr (Inc_Resolved Inc) = None).
Proof.
  apply (proj2 (@replay_outcomes_follow_the_file_manager
                  Sample.collaborators Sample.Replayer Sample.ReplayedCalls
                  eq_refl)).
  right; right; right; left; reflexivity.
Defined.

Lemma attach_chains_onto_existing_listeners_witness :
  ReplayPreamble.attach Sample.Includes [SessionCallbacks 0] Sample.SrcMgr 17
  = [SessionCallbacks 0]
    ++ [ReplayPreambleCallbacks Sample.Includes [SessionCallbacks 0]
                                Sample.SrcMgr 17].
Proof.
  apply (proj2 (@attach_chains_onto_existing_listeners
                  Sample.Includes [SessionCallbacks 0] Sample.SrcMgr 17)).
  discriminate.
Defined.


Lemma build_fails_only_at_session_start_witness :
  fst (build Sample.BadInvocation Sample.ConfigDiags (Some Sample.Preamble)
             Sample.Buffer (Sample.FS 0) (Some Sample.Index) Sample.Opts
             emptyWorld) = None.
Proof.
  apply (proj1 (@build_fails_only_at_session_start
                  Sample.collaborators Sample.BadInvocation Sample.ConfigDiags
                  (Some Sample.Preamble) Sample.Buffer (Sample.FS 0)
                  (Some Sample.Index) Sample.Opts emptyWorld)).
  left; reflexivity.
Defined.


Lemma unit_keeps_every_main_file_declaration_witness :
  exists AST,
    AST_LocalTopLevelDecls AST = [Sample.x_decl; Sample.assert_decl].
Proof.
  destruct (fst (build Sample.Invocation Sample.ConfigDiags
                       (Some Sample.Preamble) Sample.Buffer (Sample.FS 0)
                       (Some Sample.Index) Sample.Opts emptyWorld))
    as [AST|] eqn:E; [|vm_compute in E; discriminate E].
  exists AST.
  destruct (@unit_keeps_every_main_file_declaration
              Sample.collaborators Sample.Invocation Sample.ConfigDiags
              (Some Sample.Preamble) Sample.Buffer (Sample.FS 0)
              (Some Sample.Index) Sample.Opts emptyWorld AST
              (MoreSample.Clang None) eq_refl E) as [Hdecls _].
  exact Hdecls.
Defined.

Lemma built_unit_is_scoped_to_its_declarations_witness :
  exists AST,
    Clang_TraversalScope (AST_Clang AST) = Some (AST_LocalTopLevelDecls AST)
    /\ Clang_DiagnosticClient (AST_Clang AST) = IgnoreDiagnostics
    /\ AST_Preamble AST = Some Sample.Preamble
    /\ fst (takeTopLevelDecls (AST_Action AST)) = [].
Proof.
  destruct (fst (build Sample.Invocation Sample.ConfigDiags
                       (Some Sample.Preamble) Sample.Buffer (Sample.FS 0)
                       (Some Sample.Index) Sample.Opts emptyWorld))
    as [AST|] eqn:E; [|vm_compute in E; discriminate E].
  exists AST.
  exact (@built_unit_is_scoped_to_its_declarations
           Sample.collaborators Sample.Invocation Sample.ConfigDiags
           (Some Sample.Preamble) Sample.Buffer (Sample.FS 0)
           (Some Sample.Index) Sample.Opts emptyWorld AST E).
Defined.


Lemma replay_is_registered_before_the_collectors_witness :
  exists AST,
    Clang_PPCallbacks (AST_Clang AST)
    = [SessionCallbacks 0; TidyCheckCallbacks "R"]
      ++ [ReplayPreambleCallbacks
            Sample.Includes [SessionCallbacks 0; TidyCheckCallbacks "R"]
            Sample.SrcMgr 17]
      ++ [IncludeStructureCallback; CollectMainFileMacros].
Proof.
  destruct (fst (build Sample.Invocation Sample.ConfigDiags
                       (Some Sample.Preamble) Sample.Buffer (Sample.FS 0)
                       (Some Sample.Index) Sample.Opts emptyWorld))
    as [AST|] eqn:E; [|vm_compute in E; discriminate E].
  exists AST.
  exact (@replay_is_registered_before_the_collectors
           Sample.collaborators Sample.Invocation Sample.ConfigDiags
           (Some Sample.Preamble) Sample.Buffer (Sample.FS 0)
           (Some Sample.Index) Sample.Opts emptyWorld AST
           (MoreSample.Clang None) eq_refl E).
Defined.


Lemma include_fixer_is_set_up_iff_witness :
  exists F,
    makeFixIncludes Sample.FileName Sample.Contents (Some Sample.Preamble)
                    (Sample.FS 0) (Some Sample.Index) Sample.Opts = Some F
    /\ IncludeFixer.IndexRequestLimit F = 5
    /\ IncludeFixer.Inserter_Existing (IncludeFixer.Inserter F)
       = MainFileIncludes Sample.Includes.
Proof.
  destruct (makeFixIncludes Sample.FileName Sample.Contents
              (Some Sample.Preamble) (Sample.FS 0) (Some Sample.Index)
              Sample.Opts) as [F|] eqn:E; [|vm_compute in E; discriminate E].
  exists F. split; [reflexivity|].
  destruct (proj2 (@include_fixer_is_set_up_iff
                     Sample.collaborators Sample.FileName Sample.Contents
                     (Some Sample.Preamble) (Sample.FS 0) (Some Sample.Index)
                     Sample.Opts) F E)
    as (_ & Hlimit & _ & _ & _ & Hexisting).
  auto.
Defined.

Lemma buildAST_is_build_after_chdir_witness :
  buildAST Sample.FileName Sample.Invocation Sample.ConfigDiags
           (Sample.Inputs "/src") (Some Sample.Preamble) emptyWorld
  = build Sample.Invocation Sample.ConfigDiags (Some Sample.Preamble)
          (getMemBufferCopy Sample.Contents Sample.FileName) (Sample.FS 0)
          (Some Sample.Index) Sample.Opts emptyWorld.
Proof.
  apply (@buildAST_is_build_after_chdir
           Sample.collaborators Sample.FileName Sample.Invocation
           Sample.ConfigDiags (Sample.Inputs "/src") (Some Sample.Preamble)
           emptyWorld (Sample.FS 0) false).
  reflexivity.
Defined.

End MoreOnTheSample.
